(** * ScriptThread: lifecycle controller and multicast monitors

    A shallow embedding of [pylablib/thread/script_thread.py].

    The Python object [self] becomes an explicit record [ScriptThread]
    threaded through a state-and-exception monad [M]: a method either
    returns a value or raises, and in both cases the mutated object
    survives (Python does not roll attributes back when an exception
    unwinds).  The monitor registry [self._monitored_signals] is a
    [gmap] from monitor names to [MonitoredSignal] records. *)

From Stdlib Require Import ZArith String List Bool Lia.
From stdpp Require Import base option list gmap strings fin_maps.
Import ListNotations.

Local Open Scope string_scope.

(** ** Data model *)

(** Modelled from the spec: the multicast tuple built by
    [multicast_pool.TMulticast] in the subscription callback; module
    [multicast_pool] is not part of the sources.  The payload is dynamically typed in Python and is an
    integer here. *)
Record TMulticast := mkTMulticast {
  mc_src : string;
  mc_dst : string;
  mc_tag : string;
  mc_value : Z
}.

(** [class MonitoredSignal]: [__init__] stores the subscription handle and
    starts with an empty queue and [paused=True].  The class defines no
    other method. *)
Record MonitoredSignal := mkMonitoredSignal {
  uid : nat;
  messages : list TMulticast;
  paused : bool
}.

Definition MonitoredSignal__init__ (u : nat) : MonitoredSignal :=
  {| uid := u; messages := []; paused := true |}.

(** [TMulticastWaitResult=collections.namedtuple(...,["monitor","message"])] *)
Record TMulticastWaitResult := mkTMulticastWaitResult {
  monitor : string;
  message : TMulticast
}.

(** What reaches the thread from outside and waits in its event queue until
    the thread pumps it: an interrupt ([send_interrupt(tag,None)]) or an
    emission of the queued [_monitor_signal] carrying [(mon,msg)]. *)
Inductive event :=
| Interrupt (tag : string)
| MonitorSignal (mon : string) (msg : TMulticast).

(** Instrumentation (not a Python attribute): the points at which code
    outside the controller gets to look at the object. *)
Inductive point :=
| AtRun                       (* entry of [run_script] *)
| AtInterrupt (kind : string) (* entry of [interrupt_script(kind)] *)
| AtCall.                     (* a statement of the script has completed *)

Record observation := mkObservation {
  obs_point : point;
  obs_executing : bool;
  obs_reason : string
}.

(** The object.  The first four fields are the attributes assigned in
    [ScriptThread.__init__].  The next four stand for the inherited
    [QTaskThread] and its multicast pool, whose module is not part of the
    sources: the handles currently subscribed on the bus, the next fresh
    handle, the thread's queue of undelivered events, and the number of
    [start_script] commands scheduled through [self.ca].  [trace] is the
    instrumentation log. *)
Record ScriptThread := mkScriptThread {
  _monitored_signals : gmap string MonitoredSignal;
  executing : bool;
  interrupt_reason : string;
  stop_request : bool;
  subscriptions : gset nat;
  next_uid : nat;
  inbox : list event;
  queued_start_script : nat;
  trace : list observation
}.

Definition set_monitored_signals (m : gmap string MonitoredSignal) (s : ScriptThread) :=
  mkScriptThread m (executing s) (interrupt_reason s) (stop_request s)
    (subscriptions s) (next_uid s) (inbox s) (queued_start_script s) (trace s).
Definition set_executing (b : bool) (s : ScriptThread) :=
  mkScriptThread (_monitored_signals s) b (interrupt_reason s) (stop_request s)
    (subscriptions s) (next_uid s) (inbox s) (queued_start_script s) (trace s).
Definition set_interrupt_reason (r : string) (s : ScriptThread) :=
  mkScriptThread (_monitored_signals s) (executing s) r (stop_request s)
    (subscriptions s) (next_uid s) (inbox s) (queued_start_script s) (trace s).
Definition set_stop_request (b : bool) (s : ScriptThread) :=
  mkScriptThread (_monitored_signals s) (executing s) (interrupt_reason s) b
    (subscriptions s) (next_uid s) (inbox s) (queued_start_script s) (trace s).
Definition set_subscriptions (u : gset nat) (n : nat) (s : ScriptThread) :=
  mkScriptThread (_monitored_signals s) (executing s) (interrupt_reason s)
    (stop_request s) u n (inbox s) (queued_start_script s) (trace s).
Definition set_inbox (q : list event) (s : ScriptThread) :=
  mkScriptThread (_monitored_signals s) (executing s) (interrupt_reason s)
    (stop_request s) (subscriptions s) (next_uid s) q (queued_start_script s) (trace s).
Definition set_queued_start_script (n : nat) (s : ScriptThread) :=
  mkScriptThread (_monitored_signals s) (executing s) (interrupt_reason s)
    (stop_request s) (subscriptions s) (next_uid s) (inbox s) n (trace s).
Definition set_trace (t : list observation) (s : ScriptThread) :=
  mkScriptThread (_monitored_signals s) (executing s) (interrupt_reason s)
    (stop_request s) (subscriptions s) (next_uid s) (inbox s) (queued_start_script s) t.

(** ** Exceptions and the method monad *)

(** [ScriptStopException] is the class defined in the module; the others
    are the builtin exceptions the methods can raise, and [ScriptError]
    stands for an arbitrary error raised by the user's own script code. *)
Inductive exn :=
| ScriptStopException
| KeyError
| IndexError
| TypeError
| ScriptError.

Inductive result (A : Type) :=
| Ret (v : A) (s : ScriptThread)
| Raise (e : exn) (s : ScriptThread).
Arguments Ret {A} v s.
Arguments Raise {A} e s.

Definition M (A : Type) : Type := ScriptThread -> result A.

Definition ret {A} (v : A) : M A := fun s => Ret v s.
Definition raise {A} (e : exn) : M A := fun s => Raise e s.
Definition bind {A B} (c : M A) (k : A -> M B) : M B :=
  fun s => match c s with
           | Ret v s' => k v s'
           | Raise e s' => Raise e s'
           end.
Definition get : M ScriptThread := fun s => Ret s s.
Definition modify (f : ScriptThread -> ScriptThread) : M unit := fun s => Ret tt (f s).

Declare Scope py_scope.
Delimit Scope py_scope with py.
Notation "'let*' x ':=' c 'in' k" := (bind c (fun x => k))
  (at level 10, x name, c at level 100, k at level 200) : py_scope.
Notation "c ';;' k" := (bind c (fun _ => k))
  (at level 100, k at level 200, right associativity) : py_scope.
Local Open Scope py_scope.

Definition final_state {A} (r : result A) : ScriptThread :=
  match r with Ret _ s => s | Raise _ s => s end.

Definition returns {A} (r : result A) : bool :=
  match r with Ret _ _ => true | Raise _ _ => false end.

(** [ScriptThread.__init__]: no monitors, [executing=False],
    [interrupt_reason="shutdown"], [stop_request=False]; nothing subscribed,
    queued or observed yet. *)
Definition __init__ : ScriptThread :=
  {| _monitored_signals := ∅;
     executing := false;
     interrupt_reason := "shutdown";
     stop_request := false;
     subscriptions := ∅;
     next_uid := 0;
     inbox := [];
     queued_start_script := 0;
     trace := [] |}.

(** ** The monitor registry *)

(** [self._monitored_signals[mon]]: a missing key raises [KeyError]. *)
Definition getitem (mon : string) : M MonitoredSignal :=
  fun s => match _monitored_signals s !! mon with
           | Some sig => Ret sig s
           | None => Raise KeyError s
           end.

Definition setitem (mon : string) (sig : MonitoredSignal) : M unit :=
  modify (fun s => set_monitored_signals (<[mon:=sig]> (_monitored_signals s)) s).

(** Modelled from the spec: [subscribe_nonsync] of the missing
    [QTaskThread]; it registers the callback on the bus and returns a fresh
    opaque handle. *)
Definition subscribe_nonsync : M nat :=
  fun s => Ret (next_uid s)
               (set_subscriptions ({[next_uid s]} ∪ subscriptions s) (S (next_uid s)) s).

(** Modelled from the spec: [unsubscribe] of the missing [QTaskThread], an
    idempotent removal of the handle from the bus. *)
Definition unsubscribe (u : nat) : M unit :=
  modify (fun s => set_subscriptions (subscriptions s ∖ {[u]}) (next_uid s) s).

(** [_on_monitor_signal]: the slot run in the owning thread for every
    queued emission.  An unknown monitor is ignored ([except KeyError:
    pass]); a paused one does not append. *)
Definition _on_monitor_signal (value : string * TMulticast) (s : ScriptThread) : ScriptThread :=
  let '(mon, msg) := value in
  match _monitored_signals s !! mon with
  | Some signal =>
      if negb (paused signal)
      then set_monitored_signals
             (<[mon := mkMonitoredSignal (uid signal) (messages signal ++ [msg]) (paused signal)]>
                (_monitored_signals s)) s
      else s
  | None => s
  end.

(** [add_signal_monitor]; the filter arguments [srcs], [dsts], [tags] and
    [filt] are handed to the bus unchanged and play no part in the
    registry. *)
Definition add_signal_monitor (mon : string) : M unit :=
  let* s := get in
  if decide (is_Some (_monitored_signals s !! mon))
  then raise KeyError
  else let* u := subscribe_nonsync in
       setitem mon (MonitoredSignal__init__ u).

(** [uid,_=obj]: unpacking iterates over the right-hand side.  A
    [MonitoredSignal] is a plain object whose class defines [__init__]
    only, so it is not iterable and the statement raises [TypeError]. *)
Definition unpack_pair (obj : MonitoredSignal) : M (nat * unit) :=
  raise TypeError.

(** [dict.pop(mon)] on a key known to be present. *)
Definition dict_pop (mon : string) : M MonitoredSignal :=
  let* sig := getitem mon in
  modify (fun s => set_monitored_signals (delete mon (_monitored_signals s)) s) ;;
  ret sig.

Definition remove_signal_monitor (mon : string) : M unit :=
  let* s := get in
  if decide (is_Some (_monitored_signals s !! mon))
  then let* obj := dict_pop mon in
       let* p := unpack_pair obj in
       unsubscribe (fst p)
  else raise KeyError.

Definition new_monitored_signals_number (mon : string) : M nat :=
  let* s := get in
  if decide (is_Some (_monitored_signals s !! mon))
  then let* sig := getitem mon in ret (length (messages sig))
  else raise KeyError.

(** [self._monitored_signals[mon].messages.pop(0)]: [IndexError] on an
    empty list. *)
Definition messages_pop0 (mon : string) : M TMulticast :=
  let* sig := getitem mon in
  match messages sig with
  | [] => raise IndexError
  | msg :: rest =>
      setitem mon (mkMonitoredSignal (uid sig) rest (paused sig)) ;;
      ret msg
  end.

(** [[... .pop(0) for _ in range(n)]]: pops one by one; what was popped
    before an [IndexError] stays popped. *)
Fixpoint pop_comprehension (mon : string) (k : nat) : M (list TMulticast) :=
  match k with
  | O => ret []
  | S k' =>
      let* msg := messages_pop0 mon in
      let* msgs := pop_comprehension mon k' in
      ret (msg :: msgs)
  end.

(** The three shapes [pop_monitored_signal] can return. *)
Inductive popped :=
| PyNone
| OneMessage (msg : TMulticast)
| MessageList (msgs : list TMulticast).

(** [pop_monitored_signal(mon, n=None)]; [range(n)] is empty for [n <= 0]. *)
Definition pop_monitored_signal (mon : string) (n : option Z) : M popped :=
  let* num := new_monitored_signals_number mon in
  if negb (Nat.eqb num 0)
  then match n with
       | None => let* msg := messages_pop0 mon in ret (OneMessage msg)
       | Some n => let* msgs := pop_comprehension mon (Z.to_nat n) in ret (MessageList msgs)
       end
  else ret PyNone.

Definition reset_monitored_signal (mon : string) : M unit :=
  let* sig := getitem mon in
  setitem mon (mkMonitoredSignal (uid sig) [] (paused sig)).

Definition pause_monitoring (mon : string) (paused : bool) : M unit :=
  let* sig := getitem mon in
  setitem mon (mkMonitoredSignal (uid sig) (messages sig) paused).

Definition start_monitoring (mon : string) : M unit :=
  pause_monitoring mon false.

(** ** Interrupts, message pump and waiting *)

(** [send_interrupt(tag,None)] of the missing base class, called from
    another thread: the interrupt joins the owning thread's queue. *)
Definition send_interrupt (tag : string) (s : ScriptThread) : ScriptThread :=
  set_inbox (inbox s ++ [Interrupt tag]) s.

Definition start_execution : ScriptThread -> ScriptThread := send_interrupt "control.start".
Definition stop_execution : ScriptThread -> ScriptThread := send_interrupt "control.stop".

(** What [check_monitors] can return: nothing (Python falls off the loop
    and returns [None]), [True], or a popped result. *)
Inductive checked :=
| CkNone
| CkTrue
| CkResult (r : TMulticastWaitResult).

Definition truthy (c : checked) : bool :=
  match c with CkNone => false | _ => true end.

(** The closure [check_monitors(pop=False)] of [wait_for_signal_monitor],
    with the captured list [mons] as an argument. *)
Fixpoint check_monitors (mons : list string) (pop : bool) : M checked :=
  match mons with
  | [] => ret CkNone
  | mon :: rest =>
      let* sig := getitem mon in
      match messages sig with
      | [] => check_monitors rest pop
      | _ :: _ =>
          if pop
          then let* msg := messages_pop0 mon in
               ret (CkResult (mkTMulticastWaitResult mon msg))
          else ret CkTrue
      end
  end.

(** [for mon in mons: if mon not in self._monitored_signals: raise KeyError] *)
Fixpoint check_registered (mons : list string) : M unit :=
  match mons with
  | [] => ret tt
  | mon :: rest =>
      let* s := get in
      if decide (is_Some (_monitored_signals s !! mon))
      then check_registered rest
      else raise KeyError
  end.

(** The argument [mons] is either one name or a list (or tuple) of names. *)
Inductive mons_arg :=
| OneMonitor (mon : string)
| Monitors (mons : list string).

Definition as_list (mons : mons_arg) : list string :=
  match mons with
  | OneMonitor mon => [mon]
  | Monitors mons => mons
  end.

(** What the instrumentation records at point [p]. *)
Definition seen (p : point) (s : ScriptThread) : observation :=
  mkObservation p (executing s) (interrupt_reason s).

Section Controller.

(** [controller.QTaskThread.process_interrupt] is not part of the sources;
    all that matters here is which tags the base class consumes itself. *)
Variable base_process_interrupt : string -> bool.

Definition process_interrupt (tag : string) (s : ScriptThread) : bool * ScriptThread :=
  if base_process_interrupt tag then (true, s)
  else if String.eqb tag "control.start" then
    (* [self.ca.start_script()] schedules the command, it does not run it *)
    let s1 := set_queued_start_script (S (queued_start_script s)) s in
    (true, if executing s1 then set_stop_request true s1 else s1)
  else if String.eqb tag "control.stop" then
    (true, set_stop_request true s)
  else (false, s).

(** One queued event handled in the owning thread. *)
Definition dispatch (e : event) (s : ScriptThread) : ScriptThread :=
  match e with
  | Interrupt tag => snd (process_interrupt tag s)
  | MonitorSignal mon msg => _on_monitor_signal (mon, msg) s
  end.

Fixpoint drain (evs : list event) (s : ScriptThread) : ScriptThread :=
  match evs with
  | [] => s
  | e :: evs' => drain evs' (dispatch e (set_inbox evs' s))
  end.

(** Modelled from the spec: [check_messages] of the missing [QTaskThread]
    drains and dispatches everything pending for this thread. *)
Definition check_messages : M unit :=
  fun s => Ret tt (drain (inbox s) s).

Definition check_stop (check_messages_arg : bool) : M unit :=
  (if check_messages_arg then check_messages else ret tt) ;;
  let* s := get in
  if stop_request s
  then modify (set_stop_request false) ;; raise ScriptStopException
  else ret tt.

(** Modelled from the spec: [wait_until(check,timeout)] of the missing
    [QTaskThread].  It polls [check] each time the pump has processed one
    event and reports whether [check] became true.  The queue holds the
    events that reach the thread before the timeout elapses; when it runs
    dry with [check] still false the wait has timed out. *)
Fixpoint wait_loop (check : M bool) (evs : list event) : M bool :=
  fun s =>
    match check s with
    | Raise e s' => Raise e s'
    | Ret true s' => Ret true s'
    | Ret false s' =>
        match evs with
        | [] => Ret false s'
        | e :: evs' => wait_loop check evs' (dispatch e (set_inbox evs' s'))
        end
    end.

Definition wait_until (check : M bool) : M bool :=
  fun s => wait_loop check (inbox s) s.

Definition wait_for_signal_monitor (mons : mons_arg) : M checked :=
  let mons := as_list mons in
  check_registered mons ;;
  let* result := check_monitors mons true in
  match result with
  | CkNone =>
      wait_until (let* c := check_monitors mons false in ret (truthy c)) ;;
      check_monitors mons true
  | _ => ret result
  end.

(** *** The user's script *)

(** What an overloaded [run_script] or [interrupt_script] does with the
    thread: a straight-line sequence of calls to the public methods, an
    error of its own, or nothing while another thread posts an event.
    Return values are not inspected and no exception is caught. *)
Inductive stmt :=
| Scheck_stop (check_messages_arg : bool)
| Sadd_signal_monitor (mon : string)
| Sremove_signal_monitor (mon : string)
| Swait_for_signal_monitor (mons : mons_arg)
| Snew_monitored_signals_number (mon : string)
| Spop_monitored_signal (mon : string) (n : option Z)
| Sreset_monitored_signal (mon : string)
| Spause_monitoring (mon : string) (paused : bool)
| Sstart_monitoring (mon : string)
| Sraise
| Sposted (e : event).

Definition discard {A} (c : M A) : M unit := c ;; ret tt.

Definition exec_stmt (c : stmt) : M unit :=
  match c with
  | Scheck_stop cm => check_stop cm
  | Sadd_signal_monitor mon => add_signal_monitor mon
  | Sremove_signal_monitor mon => remove_signal_monitor mon
  | Swait_for_signal_monitor mons => discard (wait_for_signal_monitor mons)
  | Snew_monitored_signals_number mon => discard (new_monitored_signals_number mon)
  | Spop_monitored_signal mon n => discard (pop_monitored_signal mon n)
  | Sreset_monitored_signal mon => reset_monitored_signal mon
  | Spause_monitoring mon p => pause_monitoring mon p
  | Sstart_monitoring mon => start_monitoring mon
  | Sraise => raise ScriptError
  | Sposted e => modify (fun s => set_inbox (inbox s ++ [e]) s)
  end.

Definition observe (p : point) : M unit :=
  modify (fun s => set_trace (trace s ++ [seen p s]) s).

Fixpoint exec_body (body : list stmt) : M unit :=
  match body with
  | [] => ret tt
  | c :: rest => exec_stmt c ;; observe AtCall ;; exec_body rest
  end.

Variable run_body : list stmt.
Variable interrupt_body : string -> list stmt.

Definition run_script : M unit :=
  observe AtRun ;; exec_body run_body.

Definition interrupt_script (kind : string) : M unit :=
  observe (AtInterrupt kind) ;; exec_body (interrupt_body kind).

(** The default [finalize_script]: [self.interrupt_script()]. *)
Definition finalize_script : M unit := interrupt_script "default".

Definition finalize_task : M unit := finalize_script.

(** [_start_script]: the [try] body and its two handlers.  An exception
    raised inside a handler is not caught by the sibling handler. *)
Definition _start_script : M unit :=
  fun s =>
    let s := set_stop_request false (set_executing true s) in
    match (modify (set_interrupt_reason "done") ;;
           run_script ;;
           interrupt_script "default" ;;
           modify (set_interrupt_reason "shutdown") ;;
           modify (set_executing false)) s with
    | Ret v s' => Ret v s'
    | Raise ScriptStopException s' =>
        (modify (set_interrupt_reason "stopped") ;;
         interrupt_script "default" ;;
         modify (set_interrupt_reason "shutdown") ;;
         modify (set_executing false)) s'
    | Raise e s' =>
        (modify (set_interrupt_reason "failed") ;; raise e) s'
    end.

(** *** The hosting thread *)

(** Modelled from the spec: the missing [QTaskThread] main loop, as far as
    the script thread can tell.  Other threads post events; the idle loop
    pumps them, runs a scheduled [start_script] command, or tears the
    thread down, which calls [finalize_task]. *)
Inductive host_action :=
| Post (e : event)
| Pump
| RunScheduled
| Teardown.

Definition host_step (a : host_action) : M unit :=
  match a with
  | Post e => modify (fun s => set_inbox (inbox s ++ [e]) s)
  | Pump => check_messages
  | RunScheduled =>
      let* s := get in
      match queued_start_script s with
      | O => ret tt
      | S n => modify (set_queued_start_script n) ;; _start_script
      end
  | Teardown => finalize_task
  end.

(** An error that escapes a command is fatal: the thread is torn down
    ([finalize_task] runs regardless) and handles nothing further.  The
    thread also ends after an orderly teardown. *)
Fixpoint run_host (acts : list host_action) (s : ScriptThread) : ScriptThread :=
  match acts with
  | [] => s
  | Teardown :: _ => final_state (finalize_task s)
  | a :: rest =>
      match host_step a s with
      | Ret _ s' => run_host rest s'
      | Raise _ s' => final_state (finalize_task s')
      end
  end.

End Controller.

(** * Vocabulary of the properties *)

(** ** Registry states *)

(** The record of [mon] with its queue replaced by [q]. *)
Definition with_queue (mon : string) (sig : MonitoredSignal) (q : list TMulticast)
    (s : ScriptThread) : ScriptThread :=
  set_monitored_signals
    (<[mon := mkMonitoredSignal (uid sig) q (paused sig)]> (_monitored_signals s)) s.

(** [mon] is registered and has nothing buffered. *)
Definition empty_queue (s : ScriptThread) (mon : string) : Prop :=
  exists sig, _monitored_signals s !! mon = Some sig /\ messages sig = [].

(** [e] is a delivery addressed to one of [mons]. *)
Definition delivers_to (mons : list string) (e : event) : bool :=
  match e with
  | MonitorSignal mon _ => bool_decide (mon ∈ mons)
  | Interrupt _ => false
  end.

(** ** Relating the object before and after a method *)

(** [steps R c]: running [c] takes every thread object to one related to it
    by [R], whether [c] returns or raises. *)
Definition steps {A} (R : relation ScriptThread) (c : M A) : Prop :=
  forall s, R s (final_state (c s)).

(** The relation "agree on the projection [f]". *)
Definition same {B} (f : ScriptThread -> B) : relation ScriptThread :=
  fun s s' => f s' = f s.

(** The lifecycle attributes together with the observation log. *)
Definition lifecycle (s : ScriptThread) : bool * string * list observation :=
  (executing s, interrupt_reason s, trace s).

(** The observation log only grows. *)
Definition trace_grows : relation ScriptThread :=
  fun s s' => trace s `prefix_of` trace s'.

(** ** The lifecycle invariant *)

Definition lifecycle_inv (s : ScriptThread) : Prop :=
  executing s = false <-> interrupt_reason s = "shutdown".

(** The same, of a logged observation. *)
Definition obs_ok (o : observation) : Prop :=
  obs_executing o = false <-> obs_reason o = "shutdown".

(** The invariant holds now and held whenever a hook looked. *)
Definition good (s : ScriptThread) : Prop :=
  lifecycle_inv s /\ Forall obs_ok (trace s).

(** While a run is in progress. *)
Definition running (s : ScriptThread) : Prop :=
  executing s = true /\ interrupt_reason s <> "shutdown" /\ Forall obs_ok (trace s).

(** ** The supervision frame *)

(** The state in which [_start_script] calls [run_script]. *)
Definition run_entry (s : ScriptThread) : ScriptThread :=
  set_interrupt_reason "done" (set_stop_request false (set_executing true s)).

(** The rest of the [try] body of [_start_script], after [run_script]. *)
Definition after_run (base : string -> bool) (interrupt_body : string -> list stmt)
    : M unit :=
  interrupt_script base interrupt_body "default" ;;
  modify (set_interrupt_reason "shutdown") ;;
  modify (set_executing false).

(** The [except ScriptStopException] handler of [_start_script]. *)
Definition stop_handler (base : string -> bool) (interrupt_body : string -> list stmt)
    : M unit :=
  modify (set_interrupt_reason "stopped") ;;
  interrupt_script base interrupt_body "default" ;;
  modify (set_interrupt_reason "shutdown") ;;
  modify (set_executing false).

(** Both handlers, applied to the outcome of the [try] body. *)
Definition supervised (base : string -> bool) (interrupt_body : string -> list stmt)
    (r : result unit) : result unit :=
  match r with
  | Ret v s' => Ret v s'
  | Raise ScriptStopException s' => stop_handler base interrupt_body s'
  | Raise e s' => (modify (set_interrupt_reason "failed") ;; raise e) s'
  end.

(** ** Stop requests *)

(** The thread object at the point where [check_stop] reads
    [stop_request]. *)
Definition pumped (base : string -> bool) (check_messages_arg : bool) (s : ScriptThread)
    : ScriptThread :=
  if check_messages_arg then drain base (inbox s) s else s.

(** The interrupts whose processing sets [stop_request] during a run. *)
Definition requests_stop (base : string -> bool) (e : event) : bool :=
  match e with
  | Interrupt tag =>
      negb (base tag) && (String.eqb tag "control.start" || String.eqb tag "control.stop")
  | MonitorSignal _ _ => false
  end.

(** The entries of [interrupt_script] in an observation log. *)
Definition is_interrupt (o : observation) : bool :=
  match obs_point o with AtInterrupt _ => true | _ => false end.

Definition interrupt_calls (t : list observation) : list observation :=
  List.filter is_interrupt t.

(** The run is aborted at its first [check_stop]: [interrupt_script] is
    entered right after [run_script], with [interrupt_reason == "stopped"]. *)
Definition stopped_at_first_check (before after : ScriptThread) : Prop :=
  (trace before ++ [mkObservation AtRun true "done";
                    mkObservation (AtInterrupt "default") true "stopped"])%list
    `prefix_of` trace after.

(** The first [check_stop] of the run returned. *)
Definition passed_first_check (before after : ScriptThread) : Prop :=
  (trace before ++ [mkObservation AtRun true "done";
                    mkObservation AtCall true "done"])%list
    `prefix_of` trace after.

(** ** Events handled in a row *)

(** The messages that the deliveries in [evs] carry for [mon], in arrival
    order. *)
Fixpoint addressed_to (mon : string) (evs : list event) : list TMulticast :=
  match evs with
  | [] => []
  | MonitorSignal mon' msg :: evs' =>
      if String.eqb mon' mon then msg :: addressed_to mon evs' else addressed_to mon evs'
  | Interrupt _ :: evs' => addressed_to mon evs'
  end.

(** A start interrupt that reaches [ScriptThread.process_interrupt]. *)
Definition is_start (base : string -> bool) (e : event) : bool :=
  match e with
  | Interrupt tag => negb (base tag) && String.eqb tag "control.start"
  | MonitorSignal _ _ => false
  end.

(** An interrupt that sets [stop_request] on a thread whose [executing]
    attribute is [running]: a stop always, a start only during a run. *)
Definition sets_stop_request (base : string -> bool) (running : bool) (e : event) : bool :=
  match e with
  | Interrupt tag =>
      negb (base tag)
      && ((String.eqb tag "control.start" && running)
          || (negb (String.eqb tag "control.start") && String.eqb tag "control.stop"))
  | MonitorSignal _ _ => false
  end.

(** [k] calls of [wait_for_signal_monitor(mons)] in a row, collecting what
    they return. *)
Fixpoint wait_repeatedly (base : string -> bool) (mons : mons_arg) (k : nat)
    : M (list checked) :=
  match k with
  | O => ret []
  | S k' =>
      let* r := wait_for_signal_monitor base mons in
      let* rs := wait_repeatedly base mons k' in
      ret (r :: rs)
  end.

(** ** Concrete threads and scripts *)

Definition frame_msg : TMulticast := mkTMulticast "camera1" "any" "frame" 7.

(** A thread with the single monitor ["frame"], subscribed under handle
    [0], with queue [q] and pause flag [p]. *)
Definition one_monitor (q : list TMulticast) (p : bool) : ScriptThread :=
  set_subscriptions {[0]} 1
    (set_monitored_signals {["frame" := mkMonitoredSignal 0 q p]} __init__).

(** A base class that consumes no interrupt itself. *)
Definition no_base (tag : string) : bool := false.

(** The inherited [interrupt_script], which does nothing. *)
Definition no_interrupt_body (kind : string) : list stmt := [].

(** A stop arrives during the run and the script then checks for it. *)
Definition stop_then_check : list stmt :=
  [Sposted (Interrupt "control.stop"); Scheck_stop true; Sadd_signal_monitor "frame"].

(** A script that waits on a monitor it never registered. *)
Definition failing_run : list stmt :=
  [Sadd_signal_monitor "frame"; Swait_for_signal_monitor (Monitors ["frame"; "ghost"])].

(** A fresh thread after [start_execution()] was processed by its idle
    loop. *)
Definition start_requested : ScriptThread :=
  run_host no_base failing_run no_interrupt_body
    [Post (Interrupt "control.start"); Pump] __init__.

(** The thread after [stop_execution()] and then [start_execution()] were
    called on a fresh thread and each interrupt was processed by the idle
    loop: [stop_request] is set and one [start_script] command is
    scheduled. *)
Definition stop_then_start : ScriptThread :=
  run_host no_base [Scheck_stop true] no_interrupt_body [Pump]
    (start_execution
       (run_host no_base [Scheck_stop true] no_interrupt_body [Pump]
          (stop_execution __init__))).

(** An [interrupt_script] that itself polls for a stop request. *)
Definition checking_interrupt_body (kind : string) : list stmt := [Scheck_stop true].

(** An [interrupt_script] that fails. *)
Definition raising_interrupt_body (kind : string) : list stmt := [Sraise].

(** A run during which a stop is requested but never checked for. *)
Definition stop_unchecked : list stmt := [Sposted (Interrupt "control.stop")].

(** * Properties *)

(** ** Registry lookups *)

Lemma getitem_Some mon sig s :
  _monitored_signals s !! mon = Some sig -> getitem mon s = Ret sig s.
Proof. intros H. unfold getitem. now rewrite H. Qed.

(** ** Reset *)

(** C9: for a registered monitor, [reset_monitored_signal] returns normally;
    afterwards that monitor has an empty queue and the same [paused] flag and
    subscription handle, every other monitor is as before, and no other
    attribute of the thread has changed. *)
Theorem reset_monitored_signal_frame (mon : string) (sig : MonitoredSignal) (s : ScriptThread) :
  _monitored_signals s !! mon = Some sig ->
  exists s',
    reset_monitored_signal mon s = Ret tt s' /\
    _monitored_signals s' !! mon = Some (mkMonitoredSignal (uid sig) [] (paused sig)) /\
    (forall other, other <> mon -> _monitored_signals s' !! other = _monitored_signals s !! other) /\
    s' = set_monitored_signals (_monitored_signals s') s.
Proof.
  intros Hreg.
  exists (set_monitored_signals
            (<[mon := mkMonitoredSignal (uid sig) [] (paused sig)]> (_monitored_signals s)) s).
  repeat split.
  - unfold reset_monitored_signal, bind. now rewrite (getitem_Some _ _ _ Hreg).
  - simpl. apply lookup_insert_eq.
  - intros other Hne. simpl. now apply lookup_insert_ne.
Qed.

Lemma reset_monitored_signal_frame_witness :
  exists s',
    reset_monitored_signal "frame" (one_monitor [frame_msg; frame_msg] false) = Ret tt s' /\
    _monitored_signals s' !! "frame" = Some (mkMonitoredSignal 0 [] false).
Proof.
  destruct (reset_monitored_signal_frame "frame"
              (mkMonitoredSignal 0 [frame_msg; frame_msg] false)
              (one_monitor [frame_msg; frame_msg] false))
    as (s' & Hret & Hmon & _).
  - reflexivity.
  - exists s'. split; [exact Hret | exact Hmon].
Defined.

(** ** Unknown monitor names in a wait *)

Lemma check_registered_all (mons : list string) (s : ScriptThread) :
  Forall (fun mon => is_Some (_monitored_signals s !! mon)) mons ->
  check_registered mons s = Ret tt s.
Proof.
  induction 1 as [|mon mons Hmon _ IH]; [reflexivity|].
  simpl. unfold bind, get. destruct (decide _) as [_|Hno]; [exact IH | now destruct Hno].
Qed.

Lemma check_registered_missing (mons : list string) (s : ScriptThread) :
  Exists (fun mon => _monitored_signals s !! mon = None) mons ->
  check_registered mons s = Raise KeyError s.
Proof.
  induction 1 as [mon mons Hmon | mon mons _ IH]; simpl; unfold bind, get;
    destruct (decide _) as [Hyes|Hno]; try reflexivity; try exact IH.
  rewrite Hmon in Hyes. now destruct Hyes.
Qed.

(** C10: when at least one requested name is not registered,
    [wait_for_signal_monitor] raises [KeyError] and leaves the whole thread
    object as it was: no queue is popped and no pending event is pumped. *)
Theorem wait_for_signal_monitor_unregistered
    (base : string -> bool) (mons : mons_arg) (s : ScriptThread) :
  Exists (fun mon => _monitored_signals s !! mon = None) (as_list mons) ->
  wait_for_signal_monitor base mons s = Raise KeyError s.
Proof.
  intros Hmiss. unfold wait_for_signal_monitor, bind.
  now rewrite (check_registered_missing _ _ Hmiss).
Qed.

Lemma wait_for_signal_monitor_unregistered_witness :
  wait_for_signal_monitor no_base (Monitors ["frame"; "ghost"])
    (set_inbox [MonitorSignal "frame" frame_msg] (one_monitor [frame_msg] false))
  = Raise KeyError (set_inbox [MonitorSignal "frame" frame_msg] (one_monitor [frame_msg] false)).
Proof.
  apply wait_for_signal_monitor_unregistered.
  simpl. apply Exists_cons_tl, Exists_cons_hd. reflexivity.
Defined.

(** ** Removing a monitor *)

Lemma remove_signal_monitor_unregistered (mon : string) (s : ScriptThread) :
  _monitored_signals s !! mon = None ->
  remove_signal_monitor mon s = Raise KeyError s.
Proof.
  intros Hno. unfold remove_signal_monitor, bind, get.
  destruct (decide _) as [Hyes|_]; [|reflexivity].
  rewrite Hno in Hyes. now destruct Hyes.
Qed.

(** On a registered name the record is taken out of the registry, the tuple
    unpacking of the record then raises, and [unsubscribe] is never
    reached: the handle stays subscribed. *)
Lemma remove_signal_monitor_registered (mon : string) (sig : MonitoredSignal) (s : ScriptThread) :
  _monitored_signals s !! mon = Some sig ->
  remove_signal_monitor mon s
  = Raise TypeError (set_monitored_signals (delete mon (_monitored_signals s)) s).
Proof.
  intros Hreg. unfold remove_signal_monitor, bind, get.
  destruct (decide _) as [_|Hno]; [|destruct Hno; now rewrite Hreg].
  unfold dict_pop, bind. now rewrite (getitem_Some _ _ _ Hreg).
Qed.

(** C1: on the registered monitor ["frame"] with handle [0],
    [remove_signal_monitor] raises [TypeError]; the record is gone from the
    registry but handle [0] is still subscribed on the bus. *)
Theorem remove_signal_monitor_keeps_subscription :
  exists s',
    remove_signal_monitor "frame" (one_monitor [frame_msg] false) = Raise TypeError s' /\
    _monitored_signals s' !! "frame" = None /\
    0 ∈ subscriptions s'.
Proof.
  eexists. split; [|split].
  - apply (remove_signal_monitor_registered "frame" (mkMonitoredSignal 0 [frame_msg] false)).
    reflexivity.
  - simpl. apply lookup_delete_eq.
  - simpl. set_solver.
Qed.

(** ** Popping from a monitor *)

Lemma lookup_with_queue mon sig q s :
  _monitored_signals (with_queue mon sig q s) !! mon
  = Some (mkMonitoredSignal (uid sig) q (paused sig)).
Proof. simpl. apply lookup_insert_eq. Qed.

Lemma with_queue_twice mon sig sig' q q' s :
  uid sig' = uid sig -> paused sig' = paused sig ->
  with_queue mon sig' q' (with_queue mon sig q s) = with_queue mon sig q' s.
Proof.
  intros Hu Hp. unfold with_queue. simpl. rewrite Hu, Hp.
  now rewrite insert_insert_eq.
Qed.

Lemma messages_pop0_cons mon sig msg rest s :
  _monitored_signals s !! mon = Some sig -> messages sig = msg :: rest ->
  messages_pop0 mon s = Ret msg (with_queue mon sig rest s).
Proof.
  intros Hreg Hq. unfold messages_pop0, bind.
  rewrite (getitem_Some _ _ _ Hreg), Hq. reflexivity.
Qed.

Lemma messages_pop0_nil mon sig s :
  _monitored_signals s !! mon = Some sig -> messages sig = [] ->
  messages_pop0 mon s = Raise IndexError s.
Proof.
  intros Hreg Hq. unfold messages_pop0, bind.
  rewrite (getitem_Some _ _ _ Hreg), Hq. reflexivity.
Qed.

Lemma new_monitored_signals_number_registered mon sig s :
  _monitored_signals s !! mon = Some sig ->
  new_monitored_signals_number mon s = Ret (length (messages sig)) s.
Proof.
  intros Hreg. unfold new_monitored_signals_number, bind, get.
  destruct (decide _) as [_|Hno]; [|destruct Hno; now rewrite Hreg].
  now rewrite (getitem_Some _ _ _ Hreg).
Qed.

(** Without [n] the oldest message is popped, and an empty queue gives
    [None]. *)
Lemma pop_monitored_signal_oldest mon sig msg rest s :
  _monitored_signals s !! mon = Some sig -> messages sig = msg :: rest ->
  pop_monitored_signal mon None s = Ret (OneMessage msg) (with_queue mon sig rest s).
Proof.
  intros Hreg Hq. unfold pop_monitored_signal, bind.
  rewrite (new_monitored_signals_number_registered _ _ _ Hreg), Hq. simpl.
  unfold bind. now rewrite (messages_pop0_cons _ _ _ _ _ Hreg Hq).
Qed.

Lemma pop_monitored_signal_empty mon sig n s :
  _monitored_signals s !! mon = Some sig -> messages sig = [] ->
  pop_monitored_signal mon n s = Ret PyNone s.
Proof.
  intros Hreg Hq. unfold pop_monitored_signal, bind.
  now rewrite (new_monitored_signals_number_registered _ _ _ Hreg), Hq.
Qed.

(** The comprehension hands out the first [k] messages when that many are
    buffered ... *)
Lemma pop_comprehension_enough mon k : forall sig s,
  _monitored_signals s !! mon = Some sig -> k <= length (messages sig) ->
  pop_comprehension mon k s
  = Ret (take k (messages sig))
        (match k with O => s | S _ => with_queue mon sig (drop k (messages sig)) s end).
Proof.
  induction k as [|k IH]; intros sig s Hreg Hlen; [reflexivity|].
  destruct (messages sig) as [|msg rest] eqn:Hq; [simpl in Hlen; lia|].
  simpl in Hlen. cbn [pop_comprehension]. unfold bind at 1.
  rewrite (messages_pop0_cons _ _ _ _ _ Hreg Hq). unfold bind at 1.
  rewrite (IH _ _ (lookup_with_queue mon sig rest s)) by (simpl; lia).
  simpl. unfold ret. f_equal. destruct k; [reflexivity|].
  now apply with_queue_twice.
Qed.

(** ... and otherwise empties the queue and raises [IndexError]. *)
Lemma pop_comprehension_short mon k : forall sig s,
  _monitored_signals s !! mon = Some sig -> length (messages sig) < k ->
  exists s', pop_comprehension mon k s = Raise IndexError s' /\
             _monitored_signals s' !! mon = Some (mkMonitoredSignal (uid sig) [] (paused sig)).
Proof.
  induction k as [|k IH]; intros sig s Hreg Hlen; [lia|].
  cbn [pop_comprehension]. unfold bind at 1.
  destruct (messages sig) as [|msg rest] eqn:Hq.
  - rewrite (messages_pop0_nil _ _ _ Hreg Hq). exists s. split; [reflexivity|].
    rewrite Hreg. destruct sig; simpl in *; now subst.
  - rewrite (messages_pop0_cons _ _ _ _ _ Hreg Hq). simpl in Hlen.
    destruct (IH _ _ (lookup_with_queue mon sig rest s)) as (s' & Hr & Hl); [simpl; lia|].
    exists s'. unfold bind. now rewrite Hr.
Qed.

Lemma pop_monitored_signal_short mon sig (n : Z) s :
  _monitored_signals s !! mon = Some sig ->
  0 < length (messages sig) < Z.to_nat n ->
  exists s', pop_monitored_signal mon (Some n) s = Raise IndexError s' /\
             _monitored_signals s' !! mon = Some (mkMonitoredSignal (uid sig) [] (paused sig)).
Proof.
  intros Hreg [Hpos Hlt]. unfold pop_monitored_signal, bind at 1.
  rewrite (new_monitored_signals_number_registered _ _ _ Hreg).
  destruct (length (messages sig)) as [|len] eqn:Hlen; [lia|]. simpl.
  destruct (pop_comprehension_short mon (Z.to_nat n) sig s Hreg) as (s' & Hr & Hl); [lia|].
  exists s'. unfold bind. now rewrite Hr.
Qed.

(** C3: with one message buffered on the registered monitor ["frame"],
    [pop_monitored_signal("frame", 2)] raises [IndexError] instead of
    returning the one message, and the message is gone from the queue. *)
Theorem pop_monitored_signal_fewer_than_n :
  exists s',
    pop_monitored_signal "frame" (Some 2%Z) (one_monitor [frame_msg] false)
    = Raise IndexError s' /\
    _monitored_signals s' !! "frame" = Some (mkMonitoredSignal 0 [] false).
Proof.
  apply (pop_monitored_signal_short "frame" (mkMonitoredSignal 0 [frame_msg] false) 2).
  - reflexivity.
  - simpl. lia.
Qed.

(** ** Paused monitors *)

Lemma _on_monitor_signal_paused mon msg sig s :
  _monitored_signals s !! mon = Some sig -> paused sig = true ->
  _on_monitor_signal (mon, msg) s = s.
Proof. intros Hreg Hp. unfold _on_monitor_signal. now rewrite Hreg, Hp. Qed.

Lemma _on_monitor_signal_other mon mon' msg s :
  mon' <> mon ->
  _monitored_signals (_on_monitor_signal (mon', msg) s) !! mon = _monitored_signals s !! mon.
Proof.
  intros Hne. unfold _on_monitor_signal.
  destruct (_monitored_signals s !! mon') as [sig'|]; [|reflexivity].
  destruct (negb (paused sig')); [|reflexivity].
  simpl. now apply lookup_insert_ne.
Qed.

Lemma process_interrupt_registry base tag s :
  _monitored_signals (snd (process_interrupt base tag s)) = _monitored_signals s.
Proof.
  unfold process_interrupt.
  destruct (base tag); [reflexivity|].
  destruct (String.eqb tag "control.start").
  - simpl. now destruct (executing s).
  - now destruct (String.eqb tag "control.stop").
Qed.

Lemma dispatch_keeps_paused base e mon sig s :
  _monitored_signals s !! mon = Some sig -> paused sig = true ->
  _monitored_signals (dispatch base e s) !! mon = Some sig.
Proof.
  intros Hreg Hp. destruct e as [tag|mon' msg]; cbn [dispatch].
  - now rewrite process_interrupt_registry.
  - destruct (decide (mon' = mon)) as [->|Hne].
    + now rewrite (_on_monitor_signal_paused _ _ _ _ Hreg Hp).
    + now rewrite _on_monitor_signal_other.
Qed.

Lemma drain_keeps_paused base evs : forall mon sig s,
  _monitored_signals s !! mon = Some sig -> paused sig = true ->
  _monitored_signals (drain base evs s) !! mon = Some sig.
Proof.
  induction evs as [|e evs IH]; intros mon sig s Hreg Hp; [exact Hreg|].
  simpl. apply IH; [|exact Hp]. now apply dispatch_keeps_paused.
Qed.

Lemma add_signal_monitor_fresh mon s :
  _monitored_signals s !! mon = None ->
  add_signal_monitor mon s
  = Ret tt (set_monitored_signals
              (<[mon := MonitoredSignal__init__ (next_uid s)]> (_monitored_signals s))
              (set_subscriptions ({[next_uid s]} ∪ subscriptions s) (S (next_uid s)) s)).
Proof.
  intros Hno. unfold add_signal_monitor, bind, get.
  destruct (decide _) as [Hyes|_]; [rewrite Hno in Hyes; now destruct Hyes|].
  reflexivity.
Qed.

(** C5: a delivery addressed to a monitor whose [paused] flag is set leaves
    the thread object untouched, so nothing is appended; and
    [add_signal_monitor] on a free name registers a record with an empty
    queue and [paused=True], which stays exactly so whatever events
    (deliveries for any monitor, interrupts) the thread pumps afterwards. *)
Theorem add_signal_monitor_starts_paused (base : string -> bool) (mon : string) :
  (forall s sig msg,
      _monitored_signals s !! mon = Some sig -> paused sig = true ->
      _on_monitor_signal (mon, msg) s = s) /\
  (forall s,
      _monitored_signals s !! mon = None ->
      exists s',
        add_signal_monitor mon s = Ret tt s' /\
        _monitored_signals s' !! mon = Some (mkMonitoredSignal (next_uid s) [] true) /\
        forall evs,
          _monitored_signals (drain base evs s') !! mon
          = Some (mkMonitoredSignal (next_uid s) [] true)).
Proof.
  split.
  - intros s sig msg. apply _on_monitor_signal_paused.
  - intros s Hno. eexists. split; [now apply add_signal_monitor_fresh|].
    assert (Hl : forall s0 : ScriptThread,
               <[mon := MonitoredSignal__init__ (next_uid s)]> (_monitored_signals s0) !! mon
               = Some (mkMonitoredSignal (next_uid s) [] true))
      by (intros; apply lookup_insert_eq).
    split; [apply Hl|].
    intros evs. apply drain_keeps_paused; [apply Hl | reflexivity].
Qed.

Lemma add_signal_monitor_starts_paused_witness :
  _on_monitor_signal ("frame", frame_msg) (one_monitor [] true) = one_monitor [] true /\
  exists s',
    add_signal_monitor "frame" __init__ = Ret tt s' /\
    _monitored_signals
      (drain no_base
             [MonitorSignal "frame" frame_msg; Interrupt "control.stop";
              MonitorSignal "frame" frame_msg] s') !! "frame"
    = Some (mkMonitoredSignal 0 [] true).
Proof.
  destruct (add_signal_monitor_starts_paused no_base "frame") as [Hdrop Hadd].
  split.
  - apply (Hdrop (one_monitor [] true) (mkMonitoredSignal 0 [] true) frame_msg); reflexivity.
  - destruct (Hadd __init__) as (s' & Hret & _ & Hdrain); [reflexivity|].
    exists s'. split; [exact Hret | apply Hdrain].
Defined.

(** ** Waiting on monitors *)

Lemma check_monitors_none mons pop s :
  Forall (empty_queue s) mons -> check_monitors mons pop s = Ret CkNone s.
Proof.
  induction 1 as [|mon mons (sig & Hreg & Hq) _ IH]; [reflexivity|].
  simpl. unfold bind. now rewrite (getitem_Some _ _ _ Hreg), Hq.
Qed.

(** With [pop=True] the first named monitor, in the caller's order, that
    has something buffered gives up its oldest message. *)
Lemma check_monitors_first mons : forall s,
  Forall (fun mon => is_Some (_monitored_signals s !! mon)) mons ->
  Exists (fun mon => ~ empty_queue s mon) mons ->
  exists (before : list string) mon after sig msg rest,
    mons = (before ++ mon :: after)%list /\
    Forall (empty_queue s) before /\
    _monitored_signals s !! mon = Some sig /\
    messages sig = msg :: rest /\
    check_monitors mons true s
    = Ret (CkResult (mkTMulticastWaitResult mon msg)) (with_queue mon sig rest s).
Proof.
  induction mons as [|mon mons IH]; intros s Hall Hex; [now apply Exists_nil in Hex|].
  apply Forall_cons in Hall as [[sig Hreg] Hall].
  destruct (messages sig) as [|msg rest] eqn:Hq.
  - apply Exists_cons in Hex as [Hne|Hex]; [destruct Hne; now exists sig|].
    destruct (IH s Hall Hex) as (before & m & after & sg & msg & rest & -> & Hb & Hm & Hmq & Hck).
    exists (mon :: before), m, after, sg, msg, rest. repeat split; try assumption.
    + constructor; [now exists sig | exact Hb].
    + simpl. unfold bind at 1. now rewrite (getitem_Some _ _ _ Hreg), Hq.
  - exists [], mon, mons, sig, msg, rest. repeat split; try assumption; [constructor|].
    simpl. unfold bind at 1. rewrite (getitem_Some _ _ _ Hreg), Hq.
    unfold bind. now rewrite (messages_pop0_cons _ _ _ _ _ Hreg Hq).
Qed.

Lemma dispatch_not_delivered base mons e s mon :
  delivers_to mons e = false -> mon ∈ mons ->
  _monitored_signals (dispatch base e s) !! mon = _monitored_signals s !! mon.
Proof.
  intros Hq Hin. destruct e as [tag|mon' msg]; cbn [dispatch].
  - now rewrite process_interrupt_registry.
  - apply _on_monitor_signal_other. intros ->.
    simpl in Hq. apply bool_decide_eq_false in Hq. contradiction.
Qed.

Lemma wait_loop_times_out base mons evs : forall s,
  Forall (empty_queue s) mons ->
  Forall (fun e => delivers_to mons e = false) evs ->
  wait_loop base (let* c := check_monitors mons false in ret (truthy c)) evs s
  = Ret false (drain base evs s) /\
  Forall (empty_queue (drain base evs s)) mons.
Proof.
  induction evs as [|e evs IH]; intros s Hempty Hquiet.
  - split; [|exact Hempty]. simpl. unfold bind.
    now rewrite (check_monitors_none _ _ _ Hempty).
  - apply Forall_cons in Hquiet as [He Hquiet].
    cbn [wait_loop drain]. unfold bind at 1.
    rewrite (check_monitors_none _ _ _ Hempty). cbn [truthy ret].
    apply IH; [|exact Hquiet].
    rewrite Forall_forall in Hempty |- *. intros mon Hin.
    destruct (Hempty mon Hin) as (sig & Hreg & Hq). exists sig. split; [|exact Hq].
    now rewrite (dispatch_not_delivered base mons e _ mon He Hin).
Qed.

(** C6: with every named monitor registered, (1) if one of them has a
    message buffered at call entry, [wait_for_signal_monitor] returns the
    oldest message of the first such monitor in the caller's order, paired
    with that monitor's name, and pumps nothing: the thread's event queue is as
    it was and only that queue lost its head; (2) if none has a message
    buffered and none of the events reaching the thread before the timeout is
    a delivery for a named monitor, the call pumps those events and returns
    Python's [None] without raising. *)
Theorem wait_for_signal_monitor_returns
    (base : string -> bool) (mons : mons_arg) (s : ScriptThread) :
  Forall (fun mon => is_Some (_monitored_signals s !! mon)) (as_list mons) ->
  (Exists (fun mon => ~ empty_queue s mon) (as_list mons) ->
   exists (before : list string) mon after sig msg rest s',
     as_list mons = (before ++ mon :: after)%list /\
     Forall (empty_queue s) before /\
     _monitored_signals s !! mon = Some sig /\
     messages sig = msg :: rest /\
     wait_for_signal_monitor base mons s
     = Ret (CkResult (mkTMulticastWaitResult mon msg)) s' /\
     s' = with_queue mon sig rest s /\
     inbox s' = inbox s) /\
  (Forall (empty_queue s) (as_list mons) ->
   Forall (fun e => delivers_to (as_list mons) e = false) (inbox s) ->
   wait_for_signal_monitor base mons s = Ret CkNone (drain base (inbox s) s)).
Proof.
  intros Hall. split.
  - intros Hex.
    destruct (check_monitors_first _ s Hall Hex)
      as (before & mon & after & sig & msg & rest & Hsplit & Hb & Hreg & Hq & Hck).
    exists before, mon, after, sig, msg, rest, (with_queue mon sig rest s).
    repeat split; try assumption.
    unfold wait_for_signal_monitor, bind at 1.
    rewrite (check_registered_all _ _ Hall). unfold bind. now rewrite Hck.
  - intros Hempty Hquiet.
    unfold wait_for_signal_monitor, bind at 1.
    rewrite (check_registered_all _ _ Hall). unfold bind at 1.
    rewrite (check_monitors_none _ _ _ Hempty). unfold bind at 1, wait_until.
    destruct (wait_loop_times_out base _ _ s Hempty Hquiet) as [-> Hstill].
    now apply check_monitors_none.
Qed.

Lemma wait_for_signal_monitor_returns_witness :
  (exists (before : list string) mon after sig msg rest s',
     as_list (OneMonitor "frame") = (before ++ mon :: after)%list /\
     Forall (empty_queue (one_monitor [frame_msg] false)) before /\
     _monitored_signals (one_monitor [frame_msg] false) !! mon = Some sig /\
     messages sig = msg :: rest /\
     wait_for_signal_monitor no_base (OneMonitor "frame")
       (one_monitor [frame_msg] false)
     = Ret (CkResult (mkTMulticastWaitResult mon msg)) s' /\
     s' = with_queue mon sig rest (one_monitor [frame_msg] false) /\
     inbox s' = inbox (one_monitor [frame_msg] false)) /\
  wait_for_signal_monitor no_base (Monitors ["frame"])
    (set_inbox [Interrupt "control.stop"] (one_monitor [] false))
  = Ret CkNone
      (drain no_base [Interrupt "control.stop"]
         (set_inbox [Interrupt "control.stop"] (one_monitor [] false))).
Proof.
  split.
  - apply (wait_for_signal_monitor_returns no_base (OneMonitor "frame")
             (one_monitor [frame_msg] false)).
    + repeat constructor. eexists. reflexivity.
    + apply Exists_cons_hd. intros (sig & Hreg & Hq).
      vm_compute in Hreg. injection Hreg as <-. discriminate Hq.
  - apply (wait_for_signal_monitor_returns no_base (Monitors ["frame"])
             (set_inbox [Interrupt "control.stop"] (one_monitor [] false))).
    + repeat constructor. eexists. reflexivity.
    + repeat constructor. eexists. split; reflexivity.
    + repeat constructor.
Defined.

(** ** Which attributes a method can change *)

Section Steps.
Context (R : relation ScriptThread) `{!PreOrder R}.

Lemma steps_ret {A} (v : A) : steps R (ret v).
Proof. intros s. simpl. reflexivity. Qed.

Lemma steps_raise {A} (e : exn) : steps R (raise (A:=A) e).
Proof. intros s. simpl. reflexivity. Qed.

Lemma steps_get : steps R get.
Proof. intros s. simpl. reflexivity. Qed.

Lemma steps_modify (f : ScriptThread -> ScriptThread) :
  (forall s, R s (f s)) -> steps R (modify f).
Proof. intros Hf s. apply Hf. Qed.

Lemma steps_bind {A B} (c : M A) (k : A -> M B) :
  steps R c -> (forall v, steps R (k v)) -> steps R (bind c k).
Proof.
  intros Hc Hk s. unfold bind. specialize (Hc s).
  destruct (c s) as [v s'|e s']; simpl in *; [|exact Hc].
  etransitivity; [exact Hc | apply Hk].
Qed.

Lemma steps_discard {A} (c : M A) : steps R c -> steps R (discard c).
Proof. intros Hc. apply steps_bind; [exact Hc | intros; apply steps_ret]. Qed.
End Steps.

Global Instance same_preorder {B} (f : ScriptThread -> B) : PreOrder (same f).
Proof. split; [intros s; reflexivity | intros s1 s2 s3 H1 H2; unfold same in *; congruence]. Qed.

Ltac steps_apply lem :=
  apply lem; try (match goal with |- PreOrder _ => typeclasses eauto end).

Ltac steps_tac :=
  repeat first
    [ assumption
    | steps_apply @steps_ret
    | steps_apply @steps_raise
    | steps_apply @steps_get
    | steps_apply @steps_discard
    | steps_apply @steps_modify; intros ?; reflexivity
    | steps_apply @steps_bind; [|intros ?]
    | match goal with
      | |- steps _ (if ?b then _ else _) => destruct b
      | |- steps _ (match ?x with _ => _ end) => destruct x
      end ].

Section Frames.
Context {B} (f : ScriptThread -> B).
Hypothesis f_registry : forall m s, f (set_monitored_signals m s) = f s.
Hypothesis f_subscriptions : forall u n s, f (set_subscriptions u n s) = f s.
Hypothesis f_stop_request : forall b s, f (set_stop_request b s) = f s.
Hypothesis f_inbox : forall q s, f (set_inbox q s) = f s.
Hypothesis f_queued : forall n s, f (set_queued_start_script n s) = f s.

Local Abbreviation keeps := (steps (same f)).

Lemma keeps_getitem mon : keeps (getitem mon).
Proof. intros s. unfold getitem. destruct (_ !! _); reflexivity. Qed.

Lemma keeps_setitem mon sig : keeps (setitem mon sig).
Proof. steps_apply @steps_modify. intros s. apply f_registry. Qed.

Lemma keeps_subscribe_nonsync : keeps subscribe_nonsync.
Proof. intros s. apply f_subscriptions. Qed.

Lemma keeps_unsubscribe u : keeps (unsubscribe u).
Proof. intros s. apply f_subscriptions. Qed.

Lemma keeps_add_signal_monitor mon : keeps (add_signal_monitor mon).
Proof.
  pose proof keeps_subscribe_nonsync. pose proof (keeps_setitem mon).
  unfold add_signal_monitor. steps_tac. apply keeps_setitem.
Qed.

Lemma keeps_remove_signal_monitor mon : keeps (remove_signal_monitor mon).
Proof.
  pose proof (keeps_getitem mon).
  unfold remove_signal_monitor, dict_pop, unpack_pair. steps_tac.
  all: first [apply keeps_unsubscribe
             | steps_apply @steps_modify; intros s; apply f_registry].
Qed.

Lemma keeps_new_monitored_signals_number mon : keeps (new_monitored_signals_number mon).
Proof.
  pose proof (keeps_getitem mon). unfold new_monitored_signals_number. steps_tac.
Qed.

Lemma keeps_messages_pop0 mon : keeps (messages_pop0 mon).
Proof.
  pose proof (keeps_getitem mon). unfold messages_pop0. steps_tac.
  apply keeps_setitem.
Qed.

Lemma keeps_pop_comprehension mon k : keeps (pop_comprehension mon k).
Proof.
  induction k as [|k IH]; cbn [pop_comprehension]; [steps_apply @steps_ret|].
  pose proof (keeps_messages_pop0 mon). steps_tac.
Qed.

Lemma keeps_pop_monitored_signal mon n : keeps (pop_monitored_signal mon n).
Proof.
  pose proof (keeps_new_monitored_signals_number mon).
  pose proof (keeps_messages_pop0 mon).
  unfold pop_monitored_signal. steps_tac. apply keeps_pop_comprehension.
Qed.

Lemma keeps_reset_monitored_signal mon : keeps (reset_monitored_signal mon).
Proof.
  pose proof (keeps_getitem mon). unfold reset_monitored_signal. steps_tac.
  apply keeps_setitem.
Qed.

Lemma keeps_pause_monitoring mon p : keeps (pause_monitoring mon p).
Proof.
  pose proof (keeps_getitem mon). unfold pause_monitoring. steps_tac.
  apply keeps_setitem.
Qed.

Lemma keeps_check_registered mons : keeps (check_registered mons).
Proof. induction mons as [|mon mons IH]; cbn [check_registered]; steps_tac. Qed.

Lemma keeps_check_monitors mons pop : keeps (check_monitors mons pop).
Proof.
  induction mons as [|mon mons IH]; cbn [check_monitors]; [steps_tac|].
  pose proof (keeps_getitem mon). pose proof (keeps_messages_pop0 mon). steps_tac.
Qed.

Lemma keeps__on_monitor_signal value s : f (_on_monitor_signal value s) = f s.
Proof.
  destruct value as [mon msg]. unfold _on_monitor_signal.
  destruct (_ !! _) as [sig|]; [|reflexivity].
  destruct (negb _); [apply f_registry | reflexivity].
Qed.

Lemma keeps_process_interrupt base tag s : f (snd (process_interrupt base tag s)) = f s.
Proof.
  unfold process_interrupt. destruct (base tag); [reflexivity|].
  destruct (String.eqb tag "control.start").
  - simpl. destruct (executing s); [rewrite f_stop_request|]; apply f_queued.
  - destruct (String.eqb tag "control.stop"); [apply f_stop_request | reflexivity].
Qed.

Lemma keeps_dispatch base e s : f (dispatch base e s) = f s.
Proof.
  destruct e; cbn [dispatch];
    [apply keeps_process_interrupt | apply keeps__on_monitor_signal].
Qed.

Lemma keeps_drain base evs : forall s, f (drain base evs s) = f s.
Proof.
  induction evs as [|e evs IH]; intros s; simpl; [reflexivity|].
  now rewrite IH, keeps_dispatch, f_inbox.
Qed.

Lemma keeps_check_messages base : keeps (check_messages base).
Proof. intros s. apply keeps_drain. Qed.

Lemma keeps_check_stop base cm : keeps (check_stop base cm).
Proof.
  pose proof (keeps_check_messages base). unfold check_stop. steps_tac.
  steps_apply @steps_modify. intros s. apply f_stop_request.
Qed.

Lemma keeps_wait_loop base (check : M bool) evs :
  keeps check -> keeps (wait_loop base check evs).
Proof.
  intros Hc. induction evs as [|e evs IH]; intros s; simpl; specialize (Hc s);
    destruct (check s) as [[|] s'|err s']; simpl in *; try exact Hc.
  red. rewrite (IH _). simpl. now rewrite keeps_dispatch, f_inbox.
Qed.

Lemma keeps_wait_for_signal_monitor base mons : keeps (wait_for_signal_monitor base mons).
Proof.
  pose proof (keeps_check_registered (as_list mons)).
  pose proof (keeps_check_monitors (as_list mons)).
  unfold wait_for_signal_monitor. steps_tac; try apply H0.
  intros s. apply keeps_wait_loop. steps_tac. apply H0.
Qed.

Lemma keeps_exec_stmt base c : keeps (exec_stmt base c).
Proof.
  destruct c; simpl.
  - apply keeps_check_stop.
  - apply keeps_add_signal_monitor.
  - apply keeps_remove_signal_monitor.
  - steps_apply @steps_discard. apply keeps_wait_for_signal_monitor.
  - steps_apply @steps_discard. apply keeps_new_monitored_signals_number.
  - steps_apply @steps_discard. apply keeps_pop_monitored_signal.
  - apply keeps_reset_monitored_signal.
  - apply keeps_pause_monitoring.
  - apply keeps_pause_monitoring.
  - steps_apply @steps_raise.
  - steps_apply @steps_modify. intros s. apply f_inbox.
Qed.
End Frames.

(** ** What the hooks can see *)

(** No method a script can call touches [executing], [interrupt_reason] or
    the observation log. *)
Lemma exec_stmt_lifecycle base c s :
  lifecycle (final_state (exec_stmt base c s)) = lifecycle s.
Proof. apply (keeps_exec_stmt lifecycle); reflexivity. Qed.

(** A script body leaves the lifecycle attributes alone and logs one
    observation per completed statement. *)
Lemma exec_body_shape base body : forall s,
  exists n,
    lifecycle (final_state (exec_body base body s))
    = (executing s, interrupt_reason s, (trace s ++ repeat (seen AtCall s) n)%list).
Proof.
  induction body as [|c body IH]; intros s.
  - exists 0. simpl. unfold lifecycle. now rewrite app_nil_r.
  - cbn [exec_body]. unfold bind at 1.
    pose proof (exec_stmt_lifecycle base c s) as Hc.
    destruct (exec_stmt base c s) as [[] s1|e s1]; simpl in Hc.
    + unfold bind at 1, observe, modify. cbn beta.
      destruct (IH (set_trace (trace s1 ++ [seen AtCall s1]) s1)) as [n Hn].
      exists (S n). rewrite Hn. unfold lifecycle in Hc.
      injection Hc as He Hr Ht. unfold seen. simpl. rewrite He, Hr, Ht.
      now rewrite <- app_assoc.
    + exists 0. simpl. rewrite Hc. unfold lifecycle. now rewrite app_nil_r.
Qed.

Lemma run_script_shape base run_body s :
  exists n,
    lifecycle (final_state (run_script base run_body s))
    = (executing s, interrupt_reason s,
       (trace s ++ seen AtRun s :: repeat (seen AtCall s) n)%list).
Proof.
  unfold run_script, bind, observe, modify.
  destruct (exec_body_shape base run_body (set_trace (trace s ++ [seen AtRun s]) s)) as [n Hn].
  exists n. rewrite Hn. simpl. now rewrite <- app_assoc.
Qed.

Lemma interrupt_script_shape base interrupt_body kind s :
  exists n,
    lifecycle (final_state (interrupt_script base interrupt_body kind s))
    = (executing s, interrupt_reason s,
       (trace s ++ seen (AtInterrupt kind) s :: repeat (seen AtCall s) n)%list).
Proof.
  unfold interrupt_script, bind, observe, modify.
  destruct (exec_body_shape base (interrupt_body kind)
              (set_trace (trace s ++ [seen (AtInterrupt kind) s]) s)) as [n Hn].
  exists n. rewrite Hn. simpl. now rewrite <- app_assoc.
Qed.

(** ** The lifecycle invariant *)

Lemma good_lifecycle s s' : lifecycle s' = lifecycle s -> good s -> good s'.
Proof.
  unfold lifecycle, good, lifecycle_inv. intros H. injection H as -> -> ->. trivial.
Qed.

Lemma good_hook_shape p n s s' :
  lifecycle s' = (executing s, interrupt_reason s,
                  (trace s ++ seen p s :: repeat (seen AtCall s) n)%list) ->
  good s -> good s'.
Proof.
  unfold lifecycle, good, lifecycle_inv. intros H [Hinv Hok]. injection H as -> -> ->.
  split; [exact Hinv|].
  apply Forall_app. split; [exact Hok|].
  constructor; [exact Hinv|]. apply Forall_forall. intros o Ho.
  apply list_elem_of_In, repeat_spec in Ho. subst o. exact Hinv.
Qed.

Lemma good_run_script base run_body s :
  good s -> good (final_state (run_script base run_body s)).
Proof.
  destruct (run_script_shape base run_body s) as [n Hn]. exact (good_hook_shape _ _ _ _ Hn).
Qed.

Lemma good_interrupt_script base interrupt_body kind s :
  good s -> good (final_state (interrupt_script base interrupt_body kind s)).
Proof.
  destruct (interrupt_script_shape base interrupt_body kind s) as [n Hn].
  exact (good_hook_shape _ _ _ _ Hn).
Qed.

Lemma running_good s : running s -> good s.
Proof.
  intros (He & Hr & Hok). split; [|exact Hok]. unfold lifecycle_inv. rewrite He.
  split; [discriminate | intros H; now destruct Hr].
Qed.

Lemma running_hook_shape p n s s' :
  lifecycle s' = (executing s, interrupt_reason s,
                  (trace s ++ seen p s :: repeat (seen AtCall s) n)%list) ->
  running s -> running s'.
Proof.
  intros Hshape Hrun. destruct (good_hook_shape _ _ _ _ Hshape (running_good _ Hrun)) as [_ Hok].
  destruct Hrun as (He & Hr & _). unfold lifecycle in Hshape. injection Hshape as He' Hr' _.
  repeat split; [congruence | congruence | exact Hok].
Qed.

Lemma running_run_script base run_body s :
  running s -> running (final_state (run_script base run_body s)).
Proof.
  destruct (run_script_shape base run_body s) as [n Hn]. exact (running_hook_shape _ _ _ _ Hn).
Qed.

Lemma running_interrupt_script base interrupt_body kind s :
  running s -> running (final_state (interrupt_script base interrupt_body kind s)).
Proof.
  destruct (interrupt_script_shape base interrupt_body kind s) as [n Hn].
  exact (running_hook_shape _ _ _ _ Hn).
Qed.

Lemma running_reason (r : string) s :
  running s -> r <> "shutdown" -> running (set_interrupt_reason r s).
Proof. intros (He & _ & Hok) Hr. repeat split; assumption. Qed.

Lemma good_idle s :
  running s -> good (set_executing false (set_interrupt_reason "shutdown" s)).
Proof. intros (_ & _ & Hok). split; [|exact Hok]. split; reflexivity. Qed.

Lemma running_run_entry s : Forall obs_ok (trace s) -> running (run_entry s).
Proof. intros Hok. repeat split; [discriminate | exact Hok]. Qed.

(** The handler of [ScriptStopException] in [_start_script]. *)
Lemma good_stop_handler base interrupt_body s :
  running s ->
  good (final_state
          ((modify (set_interrupt_reason "stopped") ;;
            interrupt_script base interrupt_body "default" ;;
            modify (set_interrupt_reason "shutdown") ;;
            modify (set_executing false)) s)).
Proof.
  intros Hrun. unfold bind, modify.
  assert (Hst : running (set_interrupt_reason "stopped" s))
    by (apply running_reason; [exact Hrun | discriminate]).
  pose proof (running_interrupt_script base interrupt_body "default" _ Hst) as Hint.
  destruct (interrupt_script base interrupt_body "default" _) as [[] s2|e s2]; simpl in *.
  - now apply good_idle.
  - now apply running_good.
Qed.

Lemma good_fail_handler (e : exn) s :
  running s ->
  good (final_state ((modify (set_interrupt_reason "failed") ;; raise (A:=unit) e) s)).
Proof.
  intros Hrun. simpl. apply running_good, running_reason; [exact Hrun | discriminate].
Qed.

(** However a run ends, the invariant holds afterwards and held at every
    point the hooks observed. *)
Lemma good__start_script base run_body interrupt_body s :
  Forall obs_ok (trace s) ->
  good (final_state (_start_script base run_body interrupt_body s)).
Proof.
  intros Hok. unfold _start_script. fold (run_entry s).
  unfold bind at 1, modify at 1. unfold bind at 1.
  pose proof (running_run_script base run_body _ (running_run_entry s Hok)) as Hrun.
  change (set_interrupt_reason "done" (set_stop_request false (set_executing true s)))
    with (run_entry s).
  destruct (run_script base run_body (run_entry s)) as [[] s1|e s1]; simpl in Hrun.
  - unfold bind at 1.
    pose proof (running_interrupt_script base interrupt_body "default" _ Hrun) as Hint.
    destruct (interrupt_script base interrupt_body "default" s1) as [[] s2|e s2];
      simpl in Hint.
    + simpl. now apply good_idle.
    + destruct e; first [now apply good_stop_handler | now apply good_fail_handler].
  - destruct e; first [now apply good_stop_handler | now apply good_fail_handler].
Qed.

Lemma good_host_step base run_body interrupt_body a s :
  good s -> good (final_state (host_step base run_body interrupt_body a s)).
Proof.
  intros Hgood. destruct a as [e| | |]; simpl.
  - apply (good_lifecycle s); [reflexivity | exact Hgood].
  - apply (good_lifecycle s); [|exact Hgood].
    apply (keeps_drain lifecycle); reflexivity.
  - unfold bind, get. destruct (queued_start_script s) as [|n]; [exact Hgood|].
    apply good__start_script. apply Hgood.
  - now apply good_interrupt_script.
Qed.

Lemma good_run_host base run_body interrupt_body acts : forall s,
  good s -> good (run_host base run_body interrupt_body acts s).
Proof.
  induction acts as [|a acts IH]; intros s Hgood; [exact Hgood|].
  assert (Hfin : forall s0, good s0 ->
            good (final_state (finalize_task base interrupt_body s0)))
    by (intros; now apply good_interrupt_script).
  pose proof (good_host_step base run_body interrupt_body a s Hgood) as Hstep.
  destruct a; cbn [run_host]; try (now apply Hfin);
    destruct (host_step _ _ _ _ s) as [[] s'|err s']; simpl in Hstep;
    first [now apply IH | now apply Hfin].
Qed.

(** C4: starting from the freshly constructed thread, after any sequence
    of host transitions (events posted, events pumped, a scheduled run
    executed to normal completion, stop or failure, teardown) and for any
    scripts in the hooks, [executing == False] holds exactly when
    [interrupt_reason == "shutdown"]; the same held at every entry of
    [run_script] and [interrupt_script] and after every call the scripts
    made. *)
Theorem executing_iff_shutdown
    (base : string -> bool) (run_body : list stmt) (interrupt_body : string -> list stmt)
    (acts : list host_action) :
  (executing __init__ = false <-> interrupt_reason __init__ = "shutdown") /\
  (executing (run_host base run_body interrupt_body acts __init__) = false
   <-> interrupt_reason (run_host base run_body interrupt_body acts __init__) = "shutdown") /\
  Forall (fun o => obs_executing o = false <-> obs_reason o = "shutdown")
         (trace (run_host base run_body interrupt_body acts __init__)).
Proof.
  assert (Hinit : good __init__) by (split; [split; reflexivity | constructor]).
  split; [apply Hinit|]. exact (good_run_host base run_body interrupt_body acts _ Hinit).
Qed.

(** ** Stop requests *)

Lemma check_stop_spec base cm s :
  check_stop base cm s
  = if stop_request (pumped base cm s)
    then Raise ScriptStopException (set_stop_request false (pumped base cm s))
    else Ret tt (pumped base cm s).
Proof.
  unfold check_stop, pumped, bind, get, check_messages, modify, raise, ret.
  destruct cm; destruct (stop_request _); reflexivity.
Qed.

Lemma dispatch_stop_request base e s :
  stop_request (dispatch base e s)
  = stop_request s
    || (requests_stop base e
        && (executing s || match e with Interrupt tag => String.eqb tag "control.stop"
                                   | _ => false end)).
Proof.
  destruct e as [tag|mon msg]; cbn [dispatch requests_stop].
  - unfold process_interrupt. destruct (base tag); simpl; [now rewrite orb_false_r|].
    destruct (String.eqb tag "control.start") eqn:Hstart.
    + simpl. destruct (executing s); simpl; [now rewrite orb_true_r|].
      apply String.eqb_eq in Hstart. subst tag. simpl. now rewrite orb_false_r.
    + destruct (String.eqb tag "control.stop"); simpl;
        [now rewrite orb_true_r, orb_true_r | now rewrite orb_false_r].
  - rewrite (keeps__on_monitor_signal stop_request) by reflexivity.
    now rewrite orb_false_r.
Qed.

(** Pumping never clears a stop request ... *)
Lemma drain_stop_request_set base evs : forall s,
  stop_request s = true -> stop_request (drain base evs s) = true.
Proof.
  induction evs as [|e evs IH]; intros s Hs; [exact Hs|].
  simpl. apply IH. rewrite dispatch_stop_request. simpl. now rewrite Hs.
Qed.

(** ... sets none without a start or stop interrupt to process ... *)
Lemma drain_stop_request_quiet base evs : forall s,
  existsb (requests_stop base) evs = false ->
  stop_request (drain base evs s) = stop_request s.
Proof.
  induction evs as [|e evs IH]; intros s Hq; [reflexivity|].
  simpl in Hq. apply orb_false_iff in Hq as [He Hq].
  simpl. rewrite (IH _ Hq), dispatch_stop_request, He. simpl. now rewrite orb_false_r.
Qed.

(** ... and during a run sets one for every such interrupt. *)
Lemma drain_stop_request_running base evs : forall s,
  executing s = true ->
  stop_request (drain base evs s) = stop_request s || existsb (requests_stop base) evs.
Proof.
  induction evs as [|e evs IH]; intros s He; [simpl; now rewrite orb_false_r|].
  simpl. rewrite IH.
  - rewrite dispatch_stop_request. simpl. rewrite He. simpl.
    rewrite andb_true_r. now rewrite orb_assoc.
  - rewrite (keeps_dispatch executing) by reflexivity. exact He.
Qed.

Lemma interrupt_calls_repeat_call s n :
  interrupt_calls (repeat (seen AtCall s) n) = [].
Proof. induction n as [|n IH]; [reflexivity | exact IH]. Qed.

Lemma interrupt_calls_hook p n s s' :
  lifecycle s' = (executing s, interrupt_reason s,
                  (trace s ++ seen p s :: repeat (seen AtCall s) n)%list) ->
  interrupt_calls (trace s')
  = (interrupt_calls (trace s) ++ interrupt_calls [seen p s])%list.
Proof.
  unfold lifecycle. intros H. injection H as _ _ ->.
  unfold interrupt_calls. rewrite List.filter_app. f_equal.
  change (seen p s :: repeat (seen AtCall s) n)
    with ([seen p s] ++ repeat (seen AtCall s) n)%list.
  rewrite List.filter_app. fold (interrupt_calls (repeat (seen AtCall s) n)).
  now rewrite interrupt_calls_repeat_call, app_nil_r.
Qed.

Lemma run_script_facts base run_body s :
  let s1 := final_state (run_script base run_body s) in
  executing s1 = executing s /\ interrupt_reason s1 = interrupt_reason s /\
  interrupt_calls (trace s1) = interrupt_calls (trace s).
Proof.
  destruct (run_script_shape base run_body s) as [n Hn]. cbn zeta.
  pose proof (interrupt_calls_hook _ _ _ _ Hn) as Hcalls.
  unfold lifecycle in Hn. injection Hn as He Hr _.
  repeat split; [exact He | exact Hr |]. rewrite Hcalls. apply app_nil_r.
Qed.

Lemma interrupt_script_facts base interrupt_body kind s :
  let s2 := final_state (interrupt_script base interrupt_body kind s) in
  executing s2 = executing s /\ interrupt_reason s2 = interrupt_reason s /\
  interrupt_calls (trace s2)
  = (interrupt_calls (trace s) ++ [seen (AtInterrupt kind) s])%list.
Proof.
  destruct (interrupt_script_shape base interrupt_body kind s) as [n Hn]. cbn zeta.
  pose proof (interrupt_calls_hook _ _ _ _ Hn) as Hcalls.
  unfold lifecycle in Hn. injection Hn as He Hr _.
  repeat split; [exact He | exact Hr | exact Hcalls].
Qed.

Lemma _start_script_stopped base run_body interrupt_body s s1 s2 :
  run_script base run_body (run_entry s) = Raise ScriptStopException s1 ->
  interrupt_script base interrupt_body "default" (set_interrupt_reason "stopped" s1)
  = Ret tt s2 ->
  _start_script base run_body interrupt_body s
  = Ret tt (set_executing false (set_interrupt_reason "shutdown" s2)).
Proof.
  intros Hrun Hint. unfold _start_script. fold (run_entry s).
  unfold bind at 1, modify at 1. unfold bind at 1.
  change (set_interrupt_reason "done" (set_stop_request false (set_executing true s)))
    with (run_entry s).
  rewrite Hrun. unfold bind at 1, modify at 1. unfold bind at 1. now rewrite Hint.
Qed.

Lemma _start_script_failed base run_body interrupt_body s e s1 :
  e <> ScriptStopException ->
  run_script base run_body (run_entry s) = Raise e s1 ->
  _start_script base run_body interrupt_body s
  = Raise e (set_interrupt_reason "failed" s1).
Proof.
  intros He Hrun. unfold _start_script. fold (run_entry s).
  unfold bind at 1, modify at 1. unfold bind at 1.
  change (set_interrupt_reason "done" (set_stop_request false (set_executing true s)))
    with (run_entry s).
  rewrite Hrun. destruct e; [now destruct He | reflexivity..].
Qed.

(** C7: (1) when [stop_request] is set at the call, [check_stop] raises
    [ScriptStopException] and leaves [stop_request] cleared; (2) when
    [stop_request] is not set at the point where [check_stop] reads it,
    that is after the optional pump, it returns normally, and so it does in
    particular when the flag is not set at the call and no start or stop
    interrupt is pending; (3) when [run_script] ends with the stop signal and
    [interrupt_script] returns, [_start_script] itself returns normally (the
    signal goes no further), having called [interrupt_script] exactly once, with
    [interrupt_reason == "stopped"] and [executing == True], and leaves
    [interrupt_reason == "shutdown"] and [executing == False]. *)
Theorem check_stop_supervised
    (base : string -> bool) (run_body : list stmt) (interrupt_body : string -> list stmt) :
  (forall cm s,
      stop_request s = true ->
      check_stop base cm s
      = Raise ScriptStopException (set_stop_request false (pumped base cm s)) /\
      stop_request (set_stop_request false (pumped base cm s)) = false) /\
  (forall cm s,
      stop_request (pumped base cm s) = false ->
      check_stop base cm s = Ret tt (pumped base cm s)) /\
  (forall cm s,
      stop_request s = false ->
      existsb (requests_stop base) (inbox s) = false ->
      check_stop base cm s = Ret tt (pumped base cm s)) /\
  (forall s s1 s2,
      run_script base run_body (run_entry s) = Raise ScriptStopException s1 ->
      interrupt_script base interrupt_body "default" (set_interrupt_reason "stopped" s1)
      = Ret tt s2 ->
      let s' := set_executing false (set_interrupt_reason "shutdown" s2) in
      _start_script base run_body interrupt_body s = Ret tt s' /\
      interrupt_calls (trace s')
      = (interrupt_calls (trace s)
         ++ [mkObservation (AtInterrupt "default") true "stopped"])%list /\
      interrupt_reason s' = "shutdown" /\
      executing s' = false).
Proof.
  assert (Hquiet : forall cm s,
             stop_request (pumped base cm s) = false ->
             check_stop base cm s = Ret tt (pumped base cm s))
    by (intros cm s H; now rewrite check_stop_spec, H).
  split; [|split; [|split]].
  - intros cm s Hs. split; [|reflexivity]. rewrite check_stop_spec.
    assert (Hp : stop_request (pumped base cm s) = true)
      by (unfold pumped; destruct cm; [now apply drain_stop_request_set | assumption]).
    now rewrite Hp.
  - exact Hquiet.
  - intros cm s Hs Hq. apply Hquiet. unfold pumped. destruct cm; [|exact Hs].
    now rewrite drain_stop_request_quiet.
  - intros s s1 s2 Hrun Hint s'. subst s'.
    split; [exact (_start_script_stopped _ _ _ _ _ _ Hrun Hint)|].
    split; [|split; reflexivity].
    simpl.
    destruct (run_script_facts base run_body (run_entry s)) as (He1 & _ & Hc1).
    rewrite Hrun in He1, Hc1. simpl in He1, Hc1.
    destruct (interrupt_script_facts base interrupt_body "default"
                (set_interrupt_reason "stopped" s1)) as (_ & _ & Hc2).
    rewrite Hint in Hc2. simpl in Hc2. rewrite Hc2, Hc1. unfold seen. simpl.
    now rewrite He1.
Qed.

Lemma check_stop_supervised_witness :
  check_stop no_base false (set_stop_request true __init__)
  = Raise ScriptStopException __init__ /\
  check_stop no_base false __init__ = Ret tt __init__ /\
  check_stop no_base true (set_inbox [MonitorSignal "frame" frame_msg] __init__)
  = Ret tt __init__ /\
  returns (_start_script no_base stop_then_check no_interrupt_body __init__) = true /\
  interrupt_calls
    (trace (final_state (_start_script no_base stop_then_check no_interrupt_body __init__)))
  = [mkObservation (AtInterrupt "default") true "stopped"].
Proof.
  destruct (check_stop_supervised no_base stop_then_check no_interrupt_body)
    as (Hset & Hread & Hquiet & Hrun).
  split; [|split; [|split]].
  - apply (Hset false (set_stop_request true __init__)). reflexivity.
  - apply (Hread false __init__). reflexivity.
  - apply (Hquiet true (set_inbox [MonitorSignal "frame" frame_msg] __init__)); reflexivity.
  - destruct (Hrun __init__
                (final_state (run_script no_base stop_then_check (run_entry __init__)))
                (final_state
                   (interrupt_script no_base no_interrupt_body "default"
                      (set_interrupt_reason "stopped"
                         (final_state
                            (run_script no_base stop_then_check (run_entry __init__)))))))
      as (Hret & Hcalls & _).
    + reflexivity.
    + reflexivity.
    + rewrite Hret. split; [reflexivity | exact Hcalls].
Defined.

(** ** Failure of a run *)

(** C8: when [run_script] raises anything but the stop signal,
    [_start_script] re-raises that error with [interrupt_reason == "failed"]
    and [executing] still [True], and no call of [interrupt_script] has
    happened on the way; the host then tears the thread down, and
    [finalize_task] (through the default [finalize_script]) calls
    [interrupt_script] once, which sees [interrupt_reason == "failed"]. *)
Theorem run_failure_reaches_teardown
    (base : string -> bool) (run_body : list stmt) (interrupt_body : string -> list stmt)
    (s0 : ScriptThread) (n : nat) (e : exn) (s1 : ScriptThread) (rest : list host_action) :
  queued_start_script s0 = S n ->
  e <> ScriptStopException ->
  run_script base run_body (run_entry (set_queued_start_script n s0)) = Raise e s1 ->
  let s := set_queued_start_script n s0 in
  let failed := set_interrupt_reason "failed" s1 in
  _start_script base run_body interrupt_body s = Raise e failed /\
  executing failed = true /\
  interrupt_calls (trace failed) = interrupt_calls (trace s0) /\
  finalize_task base interrupt_body failed
  = interrupt_script base interrupt_body "default" failed /\
  run_host base run_body interrupt_body (RunScheduled :: rest) s0
  = final_state (finalize_task base interrupt_body failed) /\
  interrupt_calls (trace (final_state (finalize_task base interrupt_body failed)))
  = (interrupt_calls (trace s0)
     ++ [mkObservation (AtInterrupt "default") true "failed"])%list.
Proof.
  intros Hq He Hrun s failed.
  pose proof (_start_script_failed base run_body interrupt_body s e s1 He Hrun) as Hstart.
  destruct (run_script_facts base run_body (run_entry s)) as (He1 & _ & Hc1).
  unfold s in He1, Hc1. rewrite Hrun in He1, Hc1. simpl in He1, Hc1.
  split; [exact Hstart|]. split; [exact He1|]. split; [exact Hc1|].
  split; [reflexivity|]. split.
  - cbn [run_host host_step]. unfold bind at 1, get. rewrite Hq.
    unfold bind at 1, modify at 1. fold s. now rewrite Hstart.
  - unfold finalize_task, finalize_script.
    destruct (interrupt_script_facts base interrupt_body "default" failed) as (_ & _ & Hc2).
    rewrite Hc2. unfold seen, failed. simpl. now rewrite He1, Hc1.
Qed.

Lemma run_failure_reaches_teardown_witness :
  returns (_start_script no_base failing_run no_interrupt_body
             (set_queued_start_script 0 start_requested)) = false /\
  trace (run_host no_base failing_run no_interrupt_body [RunScheduled] start_requested)
  = [mkObservation AtRun true "done";
     mkObservation AtCall true "done";
     mkObservation (AtInterrupt "default") true "failed"].
Proof.
  destruct (run_failure_reaches_teardown no_base failing_run no_interrupt_body
              start_requested 0 KeyError
              (final_state
                 (run_script no_base failing_run
                    (run_entry (set_queued_start_script 0 start_requested))))
              [])
    as (Hstart & _ & _ & _ & Hhost & _).
  - reflexivity.
  - discriminate.
  - reflexivity.
  - rewrite Hstart, Hhost. split; reflexivity.
Defined.

(** ** A stop requested before the run *)

Global Instance trace_grows_preorder : PreOrder trace_grows.
Proof.
  split; [intros s; unfold trace_grows; reflexivity|].
  intros s1 s2 s3 H12 H23. unfold trace_grows in *. now transitivity (trace s2).
Qed.

Lemma shape_grows p n s s' :
  lifecycle s' = (executing s, interrupt_reason s,
                  (trace s ++ seen p s :: repeat (seen AtCall s) n)%list) ->
  (trace s ++ [seen p s])%list `prefix_of` trace s'.
Proof.
  unfold lifecycle. intros H. injection H as _ _ ->.
  exists (repeat (seen AtCall s) n). now rewrite <- app_assoc.
Qed.

Lemma exec_body_grows base body : steps trace_grows (exec_body base body).
Proof.
  intros s. destruct (exec_body_shape base body s) as [n Hn].
  unfold lifecycle in Hn. injection Hn as _ _ Ht. unfold trace_grows. rewrite Ht.
  now apply prefix_app_r.
Qed.

Lemma interrupt_script_grows base interrupt_body kind :
  steps trace_grows (interrupt_script base interrupt_body kind).
Proof.
  intros s. destruct (interrupt_script_shape base interrupt_body kind s) as [n Hn].
  unfold lifecycle in Hn. injection Hn as _ _ Ht. unfold trace_grows. rewrite Ht.
  now apply prefix_app_r.
Qed.

Lemma _start_script_supervised base run_body interrupt_body s :
  _start_script base run_body interrupt_body s
  = supervised base interrupt_body
      ((run_script base run_body ;; after_run base interrupt_body) (run_entry s)).
Proof. reflexivity. Qed.

Lemma after_run_grows base interrupt_body : steps trace_grows (after_run base interrupt_body).
Proof.
  pose proof (interrupt_script_grows base interrupt_body "default").
  unfold after_run. steps_tac.
  all: steps_apply @steps_modify; intros s; unfold trace_grows; reflexivity.
Qed.

Lemma stop_handler_calls_interrupt base interrupt_body s :
  (trace s ++ [mkObservation (AtInterrupt "default") (executing s) "stopped"])%list
    `prefix_of` trace (final_state (stop_handler base interrupt_body s)).
Proof.
  unfold stop_handler, bind, modify.
  destruct (interrupt_script_shape base interrupt_body "default"
              (set_interrupt_reason "stopped" s)) as [n Hn].
  apply shape_grows in Hn.
  destruct (interrupt_script base interrupt_body "default" _) as [[] s2|e s2]; exact Hn.
Qed.

Lemma supervised_grows base interrupt_body (r : result unit) :
  trace (final_state r) `prefix_of` trace (final_state (supervised base interrupt_body r)).
Proof.
  destruct r as [[] s'|e s']; [reflexivity|].
  destruct e; try reflexivity. simpl.
  etransitivity; [|apply stop_handler_calls_interrupt]. now apply prefix_app_r.
Qed.

Lemma bind_assoc {A B C} (c : M A) (k : A -> M B) (h : B -> M C) s :
  bind (bind c k) h s = bind c (fun v => bind (k v) h) s.
Proof. unfold bind. now destruct (c s). Qed.

Lemma bind_modify {B} (f : ScriptThread -> ScriptThread) (k : unit -> M B) s :
  bind (modify f) k s = k tt (f s).
Proof. reflexivity. Qed.

(** C2 (as amended): [_start_script] clears [stop_request] on entry, so
    whatever its value before the run, the first [check_stop] of the run
    aborts it, with [interrupt_script] called under
    [interrupt_reason == "stopped"], exactly when it pumps
    ([check_messages=True]) a start or stop interrupt that was still pending
    in the thread's queue; otherwise that first [check_stop] returns and the
    run goes on. *)
Theorem first_check_stop_of_run
    (base : string -> bool) (cm : bool) (rest : list stmt)
    (interrupt_body : string -> list stmt) (s : ScriptThread) :
  let after :=
    final_state (_start_script base (Scheck_stop cm :: rest) interrupt_body s) in
  if cm && existsb (requests_stop base) (inbox s)
  then stopped_at_first_check s after
  else passed_first_check s after.
Proof.
  intros after.
  set (s0 := set_trace (trace (run_entry s) ++ [seen AtRun (run_entry s)]) (run_entry s)).
  set (K := fun _ : unit =>
              bind (bind (observe AtCall) (fun _ => exec_body base rest))
                   (fun _ => after_run base interrupt_body)).
  assert (Hafter : after
                   = final_state (supervised base interrupt_body
                                    (bind (check_stop base cm) K s0))).
  { unfold after. rewrite _start_script_supervised.
    unfold run_script. cbn [exec_body exec_stmt].
    rewrite bind_assoc. unfold observe at 1. rewrite bind_modify. fold s0.
    now rewrite bind_assoc. }
  clearbody after. subst after.
  assert (Hflag : stop_request (pumped base cm s0)
                  = cm && existsb (requests_stop base) (inbox s)).
  { unfold pumped. destruct cm; [|reflexivity].
    rewrite drain_stop_request_running by reflexivity. reflexivity. }
  assert (Hlife : lifecycle (pumped base cm s0) = lifecycle s0).
  { unfold pumped. destruct cm; [|reflexivity].
    apply (keeps_drain lifecycle); reflexivity. }
  unfold lifecycle in Hlife. injection Hlife as He Hr Ht.
  assert (Hcheck : bind (check_stop base cm) K s0
                   = if cm && existsb (requests_stop base) (inbox s)
                     then Raise ScriptStopException
                            (set_stop_request false (pumped base cm s0))
                     else K tt (pumped base cm s0)).
  { unfold bind at 1. rewrite check_stop_spec, Hflag.
    now destruct (cm && existsb (requests_stop base) (inbox s)). }
  rewrite Hcheck. clear Hcheck Hflag.
  destruct (cm && existsb (requests_stop base) (inbox s)).
  - cbn [supervised]. unfold stopped_at_first_check.
    etransitivity; [|apply stop_handler_calls_interrupt].
    simpl. rewrite Ht, He. simpl. now rewrite <- app_assoc.
  - unfold passed_first_check.
    etransitivity; [|apply supervised_grows].
    unfold K. rewrite bind_assoc. unfold observe at 1. rewrite bind_modify.
    etransitivity;
      [|apply (steps_bind trace_grows (exec_body base rest)
                 (fun _ => after_run base interrupt_body));
        [apply exec_body_grows | intros _; apply after_run_grows]].
    simpl. unfold seen. rewrite Ht, He, Hr. simpl. now rewrite <- app_assoc.
Qed.

(** C2 (as stated) fails: with [stop_request] set before the run begins,
    the run whose only statement is [check_stop()] is not stopped; the
    check returns and [interrupt_script] sees [interrupt_reason == "done"]. *)
Lemma stop_before_run_is_cleared :
  stop_request stop_then_start = true /\
  queued_start_script stop_then_start = 1 /\
  let after :=
    run_host no_base [Scheck_stop true] no_interrupt_body [RunScheduled] stop_then_start in
  ~ stopped_at_first_check stop_then_start after /\
  trace after = [mkObservation AtRun true "done";
                 mkObservation AtCall true "done";
                 mkObservation (AtInterrupt "default") true "done"].
Proof.
  split; [reflexivity|]. split; [reflexivity|]. cbn zeta. split; [|reflexivity].
  intros [k Hk]. vm_compute in Hk. discriminate Hk.
Qed.

(** * Further properties of the module *)

(** ** Names that are taken or unknown *)

(** X1: [add_signal_monitor] on a name that is already registered raises
    [KeyError] and changes nothing: no second subscription is made and the
    existing record keeps its handle, its buffered messages and its pause
    flag. *)
Theorem add_signal_monitor_duplicate (mon : string) (sig : MonitoredSignal) (s : ScriptThread) :
  _monitored_signals s !! mon = Some sig ->
  add_signal_monitor mon s = Raise KeyError s.
Proof.
  intros Hreg. unfold add_signal_monitor, bind, get.
  destruct (decide _) as [_|Hno]; [reflexivity|].
  destruct Hno. now rewrite Hreg.
Qed.

Lemma add_signal_monitor_duplicate_witness :
  add_signal_monitor "frame" (one_monitor [frame_msg] false)
  = Raise KeyError (one_monitor [frame_msg] false).
Proof.
  apply (add_signal_monitor_duplicate "frame" (mkMonitoredSignal 0 [frame_msg] false)).
  reflexivity.
Defined.

(** X2: for a name that is not registered, [new_monitored_signals_number],
    [pop_monitored_signal], [reset_monitored_signal], [pause_monitoring] and
    [start_monitoring] all raise [KeyError] and leave the thread object as it
    was, whereas a delivery addressed to that name is swallowed without any
    error or effect. *)
Theorem unregistered_monitor_errors
    (mon : string) (n : option Z) (p : bool) (msg : TMulticast) (s : ScriptThread) :
  _monitored_signals s !! mon = None ->
  new_monitored_signals_number mon s = Raise KeyError s /\
  pop_monitored_signal mon n s = Raise KeyError s /\
  reset_monitored_signal mon s = Raise KeyError s /\
  pause_monitoring mon p s = Raise KeyError s /\
  start_monitoring mon s = Raise KeyError s /\
  _on_monitor_signal (mon, msg) s = s.
Proof.
  intros Hno.
  assert (Hnum : new_monitored_signals_number mon s = Raise KeyError s).
  { unfold new_monitored_signals_number, bind, get.
    destruct (decide _) as [Hyes|_]; [|reflexivity].
    rewrite Hno in Hyes. now destruct Hyes. }
  assert (Hget : getitem mon s = Raise KeyError s) by (unfold getitem; now rewrite Hno).
  repeat split.
  - exact Hnum.
  - unfold pop_monitored_signal, bind. now rewrite Hnum.
  - unfold reset_monitored_signal, bind. now rewrite Hget.
  - unfold pause_monitoring, bind. now rewrite Hget.
  - unfold start_monitoring, pause_monitoring, bind. now rewrite Hget.
  - unfold _on_monitor_signal. now rewrite Hno.
Qed.

Lemma unregistered_monitor_errors_witness :
  pop_monitored_signal "ghost" (Some 2%Z) (one_monitor [frame_msg] false)
  = Raise KeyError (one_monitor [frame_msg] false) /\
  _on_monitor_signal ("ghost", frame_msg) (one_monitor [frame_msg] false)
  = one_monitor [frame_msg] false.
Proof.
  destruct (unregistered_monitor_errors "ghost" (Some 2%Z) true frame_msg
              (one_monitor [frame_msg] false))
    as (_ & Hpop & _ & _ & _ & Hdel).
  - reflexivity.
  - split; [exact Hpop | exact Hdel].
Defined.

(** X3: after [remove_signal_monitor] has failed on a registered name (see
    C1) the name is free again: [add_signal_monitor] with the same name
    succeeds and registers a fresh record with an empty queue and
    [paused=True], so whatever was buffered is gone; every other monitor is as
    before, and the handle of the removed record is still subscribed. *)
Theorem remove_then_add_resets (mon : string) (sig : MonitoredSignal) (s : ScriptThread) :
  _monitored_signals s !! mon = Some sig ->
  uid sig ∈ subscriptions s ->
  exists e s1 s2,
    remove_signal_monitor mon s = Raise e s1 /\
    add_signal_monitor mon s1 = Ret tt s2 /\
    _monitored_signals s2 !! mon = Some (mkMonitoredSignal (next_uid s) [] true) /\
    (forall other, other <> mon ->
       _monitored_signals s2 !! other = _monitored_signals s !! other) /\
    uid sig ∈ subscriptions s2.
Proof.
  intros Hreg Hsub.
  exists TypeError. eexists. eexists.
  split; [exact (remove_signal_monitor_registered _ _ _ Hreg)|].
  split; [apply add_signal_monitor_fresh; simpl; apply lookup_delete_eq|].
  simpl. split; [apply lookup_insert_eq|]. split.
  - intros other Hne. rewrite lookup_insert_ne by congruence.
    now apply lookup_delete_ne.
  - set_solver.
Qed.

Lemma remove_then_add_resets_witness :
  exists e s1 s2,
    remove_signal_monitor "frame" (one_monitor [frame_msg] false) = Raise e s1 /\
    add_signal_monitor "frame" s1 = Ret tt s2 /\
    _monitored_signals s2 !! "frame" = Some (mkMonitoredSignal 1 [] true) /\
    0 ∈ subscriptions s2.
Proof.
  destruct (remove_then_add_resets "frame" (mkMonitoredSignal 0 [frame_msg] false)
              (one_monitor [frame_msg] false))
    as (e & s1 & s2 & Hrem & Hadd & Hrec & _ & Hsub).
  - reflexivity.
  - simpl. set_solver.
  - exists e, s1, s2. repeat split; assumption.
Defined.

(** ** Buffering and popping *)

(** An active monitor collects what is addressed to it. *)
Lemma drain_appends_addressed
    (base : string -> bool) (mon : string) (evs : list event) :
  forall (sig : MonitoredSignal) (s : ScriptThread),
    _monitored_signals s !! mon = Some sig ->
    paused sig = false ->
    _monitored_signals (drain base evs s) !! mon
    = Some (mkMonitoredSignal (uid sig) (messages sig ++ addressed_to mon evs) false).
Proof.
  induction evs as [|e evs IH]; intros sig s Hreg Hp.
  - simpl. rewrite app_nil_r, Hreg. destruct sig; simpl in *; now subst.
  - cbn [drain]. destruct e as [tag|mon' msg]; cbn [dispatch addressed_to].
    + apply IH; [|exact Hp]. now rewrite process_interrupt_registry.
    + destruct (String.eqb mon' mon) eqn:Heq.
      * apply String.eqb_eq in Heq. subst mon'.
        rewrite (IH (mkMonitoredSignal (uid sig) (messages sig ++ [msg]) (paused sig))).
        -- simpl. now rewrite <- app_assoc.
        -- unfold _on_monitor_signal. simpl. rewrite Hreg, Hp. simpl.
           apply lookup_insert_eq.
        -- exact Hp.
      * apply String.eqb_neq in Heq. apply IH; [|exact Hp].
        now rewrite _on_monitor_signal_other.
Qed.

(** The record of a monitor after any events were handled. *)
Lemma drain_record
    (base : string -> bool) (mon : string) (evs : list event)
    (sig : MonitoredSignal) (s : ScriptThread) :
  _monitored_signals s !! mon = Some sig ->
  _monitored_signals (drain base evs s) !! mon
  = Some (mkMonitoredSignal (uid sig)
            (messages sig ++ (if paused sig then [] else addressed_to mon evs))
            (paused sig)).
Proof.
  intros Hreg. destruct (paused sig) eqn:Hp.
  - rewrite (drain_keeps_paused base evs mon sig s Hreg Hp), app_nil_r.
    destruct sig; simpl in *; now subst.
  - now apply drain_appends_addressed.
Qed.

(** X4: while a registered monitor is not paused, handling any sequence of
    queued events (deliveries for this or other monitors, interrupts)
    appends to its queue exactly the messages addressed to it, in arrival
    order, behind what was already buffered; handle and pause flag stay. *)
Theorem deliveries_are_buffered_in_order
    (base : string -> bool) (mon : string) (evs : list event)
    (sig : MonitoredSignal) (s : ScriptThread) :
  _monitored_signals s !! mon = Some sig ->
  paused sig = false ->
  _monitored_signals (drain base evs s) !! mon
  = Some (mkMonitoredSignal (uid sig) (messages sig ++ addressed_to mon evs) false).
Proof.
  intros Hreg Hp. rewrite (drain_record base mon evs sig s Hreg), Hp. reflexivity.
Qed.

Lemma deliveries_are_buffered_in_order_witness :
  _monitored_signals
    (drain no_base
       [MonitorSignal "frame" (mkTMulticast "camera1" "any" "frame" 1);
        Interrupt "control.stop";
        MonitorSignal "other" frame_msg;
        MonitorSignal "frame" (mkTMulticast "camera1" "any" "frame" 2)]
       (one_monitor [frame_msg] false)) !! "frame"
  = Some (mkMonitoredSignal 0
            [frame_msg; mkTMulticast "camera1" "any" "frame" 1;
             mkTMulticast "camera1" "any" "frame" 2] false).
Proof.
  exact (deliveries_are_buffered_in_order no_base "frame"
           [MonitorSignal "frame" (mkTMulticast "camera1" "any" "frame" 1);
            Interrupt "control.stop";
            MonitorSignal "other" frame_msg;
            MonitorSignal "frame" (mkTMulticast "camera1" "any" "frame" 2)]
           (mkMonitoredSignal 0 [frame_msg] false)
           (one_monitor [frame_msg] false) eq_refl eq_refl).
Defined.

(** X5: on a registered monitor with a non-empty queue,
    [pop_monitored_signal(mon, n)] with [n] not above the number of buffered
    messages returns the [n] oldest messages as a list in arrival order and
    leaves the remaining ones queued in their order; for [n <= 0] that list
    is empty and the queue is untouched.  Other monitors are not affected. *)
Theorem pop_monitored_signal_first_n
    (mon : string) (sig : MonitoredSignal) (n : Z) (s : ScriptThread) :
  _monitored_signals s !! mon = Some sig ->
  messages sig <> [] ->
  (n <= Z.of_nat (length (messages sig)))%Z ->
  exists s',
    pop_monitored_signal mon (Some n) s
    = Ret (MessageList (take (Z.to_nat n) (messages sig))) s' /\
    _monitored_signals s' !! mon
    = Some (mkMonitoredSignal (uid sig) (drop (Z.to_nat n) (messages sig)) (paused sig)) /\
    (forall other, other <> mon ->
       _monitored_signals s' !! other = _monitored_signals s !! other).
Proof.
  intros Hreg Hne Hn.
  assert (Hk : Z.to_nat n <= length (messages sig)) by lia.
  exists (match Z.to_nat n with
          | O => s
          | S _ => with_queue mon sig (drop (Z.to_nat n) (messages sig)) s
          end).
  split; [|split].
  - unfold pop_monitored_signal, bind at 1.
    rewrite (new_monitored_signals_number_registered _ _ _ Hreg).
    destruct (messages sig) as [|m q] eqn:Hq; [now destruct Hne|].
    cbn [length Nat.eqb negb]. unfold bind.
    rewrite (pop_comprehension_enough mon (Z.to_nat n) sig s Hreg) by (rewrite Hq; exact Hk).
    now rewrite Hq.
  - destruct (Z.to_nat n); [|apply lookup_with_queue].
    rewrite Hreg. destruct sig; reflexivity.
  - intros other Hne'. destruct (Z.to_nat n); [reflexivity|].
    simpl. now apply lookup_insert_ne.
Qed.

Lemma pop_monitored_signal_first_n_witness :
  exists s',
    pop_monitored_signal "frame" (Some 2%Z)
      (one_monitor [frame_msg; mkTMulticast "camera1" "any" "frame" 1;
                    mkTMulticast "camera1" "any" "frame" 2] false)
    = Ret (MessageList [frame_msg; mkTMulticast "camera1" "any" "frame" 1]) s' /\
    _monitored_signals s' !! "frame"
    = Some (mkMonitoredSignal 0 [mkTMulticast "camera1" "any" "frame" 2] false).
Proof.
  destruct (pop_monitored_signal_first_n "frame"
              (mkMonitoredSignal 0 [frame_msg; mkTMulticast "camera1" "any" "frame" 1;
                                    mkTMulticast "camera1" "any" "frame" 2] false)
              2
              (one_monitor [frame_msg; mkTMulticast "camera1" "any" "frame" 1;
                            mkTMulticast "camera1" "any" "frame" 2] false))
    as (s' & Hpop & Hrec & _).
  - reflexivity.
  - discriminate.
  - simpl. lia.
  - exists s'. split; [exact Hpop | exact Hrec].
Defined.

(** X6: messages delivered while a monitor is paused are lost, not
    deferred.  After [pause_monitoring(mon)], any sequence of handled events
    and then [start_monitoring(mon)], the monitor holds exactly the messages
    it had buffered when it was paused, and is active again. *)
Theorem paused_deliveries_are_lost
    (base : string -> bool) (mon : string) (sig : MonitoredSignal)
    (evs : list event) (s : ScriptThread) :
  _monitored_signals s !! mon = Some sig ->
  exists s1 s2,
    pause_monitoring mon true s = Ret tt s1 /\
    start_monitoring mon (drain base evs s1) = Ret tt s2 /\
    _monitored_signals s2 !! mon
    = Some (mkMonitoredSignal (uid sig) (messages sig) false).
Proof.
  intros Hreg.
  assert (Hpause : pause_monitoring mon true s
                   = Ret tt (set_monitored_signals
                               (<[mon := mkMonitoredSignal (uid sig) (messages sig) true]>
                                  (_monitored_signals s)) s))
    by (unfold pause_monitoring, bind; now rewrite (getitem_Some _ _ _ Hreg)).
  eexists. eexists. split; [exact Hpause|].
  match goal with |- context [drain base evs ?s1] => set (sp := s1) end.
  assert (Hkept : _monitored_signals (drain base evs sp) !! mon
                  = Some (mkMonitoredSignal (uid sig) (messages sig) true))
    by (apply drain_keeps_paused; [apply lookup_insert_eq | reflexivity]).
  split.
  - unfold start_monitoring, pause_monitoring, bind.
    rewrite (getitem_Some _ _ _ Hkept). reflexivity.
  - simpl. apply lookup_insert_eq.
Qed.

Lemma paused_deliveries_are_lost_witness :
  exists s1 s2,
    pause_monitoring "frame" true (one_monitor [frame_msg] false) = Ret tt s1 /\
    start_monitoring "frame"
      (drain no_base [MonitorSignal "frame" (mkTMulticast "camera1" "any" "frame" 1)] s1)
    = Ret tt s2 /\
    _monitored_signals s2 !! "frame" = Some (mkMonitoredSignal 0 [frame_msg] false).
Proof.
  apply (paused_deliveries_are_lost no_base "frame" (mkMonitoredSignal 0 [frame_msg] false)).
  reflexivity.
Defined.

(** ** Interrupts *)

(** X7: handling queued events never starts or ends a run by itself: it
    leaves [executing], [interrupt_reason] and the bus subscriptions alone,
    and every start interrupt that reaches the script thread schedules
    exactly one [start_script] command, whether or not a run is in
    progress. *)
Theorem start_interrupts_are_scheduled
    (base : string -> bool) (evs : list event) :
  forall s : ScriptThread,
    queued_start_script (drain base evs s)
    = queued_start_script s + length (List.filter (is_start base) evs) /\
    executing (drain base evs s) = executing s /\
    interrupt_reason (drain base evs s) = interrupt_reason s /\
    subscriptions (drain base evs s) = subscriptions s.
Proof.
  intros s. split; [|repeat split; apply keeps_drain; reflexivity].
  revert s. induction evs as [|e evs IH]; intros s; [simpl; lia|].
  cbn [drain List.filter]. rewrite IH.
  destruct e as [tag|mon msg]; cbn [dispatch is_start].
  - unfold process_interrupt. destruct (base tag); simpl; [lia|].
    destruct (String.eqb tag "control.start"); simpl.
    + destruct (executing s); simpl; lia.
    + destruct (String.eqb tag "control.stop"); simpl; lia.
  - rewrite (keeps__on_monitor_signal queued_start_script) by reflexivity. simpl. lia.
Qed.

(** X8: after handling queued events, [stop_request] is set exactly when
    it was set before or one of the events was a stop interrupt, or a start
    interrupt while a run is in progress; a start interrupt on an idle thread
    does not request a stop, and nothing handled clears a request. *)
Theorem stop_request_after_events
    (base : string -> bool) (evs : list event) :
  forall s : ScriptThread,
    stop_request (drain base evs s)
    = stop_request s || existsb (sets_stop_request base (executing s)) evs.
Proof.
  induction evs as [|e evs IH]; intros s; [simpl; now rewrite orb_false_r|].
  cbn [drain existsb]. rewrite IH.
  rewrite (keeps_dispatch executing) by reflexivity.
  change (executing (set_inbox evs s)) with (executing s).
  rewrite orb_assoc. f_equal.
  destruct e as [tag|mon msg]; cbn [dispatch sets_stop_request].
  - unfold process_interrupt.
    destruct (base tag), (String.eqb tag "control.start"), (String.eqb tag "control.stop");
      simpl; destruct (executing s); simpl; destruct (stop_request s); reflexivity.
  - rewrite (keeps__on_monitor_signal stop_request) by reflexivity.
    now rewrite orb_false_r.
Qed.

(** ** How a run can end *)

Lemma try_body_after_run base run_body interrupt_body s s1 :
  run_script base run_body (run_entry s) = Ret tt s1 ->
  (run_script base run_body ;; after_run base interrupt_body) (run_entry s)
  = after_run base interrupt_body s1.
Proof. intros Hrun. unfold bind at 1. now rewrite Hrun. Qed.

Lemma after_run_raises base interrupt_body s1 e s2 :
  interrupt_script base interrupt_body "default" s1 = Raise e s2 ->
  after_run base interrupt_body s1 = Raise e s2.
Proof. intros Hint. unfold after_run, bind at 1. now rewrite Hint. Qed.

(** X9: when [run_script] returns and [interrupt_script] returns,
    [_start_script] returns with [interrupt_reason == "shutdown"] and
    [executing == False], and [interrupt_script] was called exactly once,
    seeing [executing == True] and [interrupt_reason == "done"]. *)
Theorem run_completes_as_done
    (base : string -> bool) (run_body : list stmt) (interrupt_body : string -> list stmt)
    (s s1 s2 : ScriptThread) :
  run_script base run_body (run_entry s) = Ret tt s1 ->
  interrupt_script base interrupt_body "default" s1 = Ret tt s2 ->
  _start_script base run_body interrupt_body s
  = Ret tt (set_executing false (set_interrupt_reason "shutdown" s2)) /\
  interrupt_calls (trace s2)
  = (interrupt_calls (trace s) ++ [mkObservation (AtInterrupt "default") true "done"])%list.
Proof.
  intros Hrun Hint. split.
  - rewrite _start_script_supervised, (try_body_after_run _ _ _ _ _ Hrun).
    unfold after_run, bind at 1. now rewrite Hint.
  - destruct (run_script_facts base run_body (run_entry s)) as (He1 & Hr1 & Hc1).
    rewrite Hrun in He1, Hr1, Hc1. simpl in He1, Hr1, Hc1.
    destruct (interrupt_script_facts base interrupt_body "default" s1) as (_ & _ & Hc2).
    rewrite Hint in Hc2. simpl in Hc2. rewrite Hc2, Hc1. unfold seen.
    now rewrite He1, Hr1.
Qed.

Lemma run_completes_as_done_witness :
  returns (_start_script no_base [Scheck_stop true] no_interrupt_body __init__)
  = true /\
  interrupt_calls
    (trace (final_state
              (_start_script no_base [Scheck_stop true] no_interrupt_body __init__)))
  = [mkObservation (AtInterrupt "default") true "done"].
Proof.
  edestruct (run_completes_as_done no_base [Scheck_stop true] no_interrupt_body
               __init__)
    as [Hret Hcalls].
  - cbv; reflexivity.
  - cbv; reflexivity.
  - rewrite Hret. split; [reflexivity | exact Hcalls].
Defined.

(** X10: [interrupt_script] is not always called once per run.  When
    [run_script] returns but the call of [interrupt_script] that follows
    raises [ScriptStopException] (it polled [check_stop] with a stop
    pending), the stop handler calls [interrupt_script] a second time, now
    with [interrupt_reason == "stopped"]; if that call returns the run ends
    idle. *)
Theorem interrupt_script_stop_signal_is_retried
    (base : string -> bool) (run_body : list stmt) (interrupt_body : string -> list stmt)
    (s s1 s2 s3 : ScriptThread) :
  run_script base run_body (run_entry s) = Ret tt s1 ->
  interrupt_script base interrupt_body "default" s1 = Raise ScriptStopException s2 ->
  interrupt_script base interrupt_body "default" (set_interrupt_reason "stopped" s2)
  = Ret tt s3 ->
  _start_script base run_body interrupt_body s
  = Ret tt (set_executing false (set_interrupt_reason "shutdown" s3)) /\
  interrupt_calls (trace s3)
  = (interrupt_calls (trace s)
     ++ [mkObservation (AtInterrupt "default") true "done";
         mkObservation (AtInterrupt "default") true "stopped"])%list.
Proof.
  intros Hrun Hint1 Hint2. split.
  - rewrite _start_script_supervised, (try_body_after_run _ _ _ _ _ Hrun),
      (after_run_raises _ _ _ _ _ Hint1).
    cbn [supervised]. unfold stop_handler, bind at 1, modify at 1. unfold bind at 1.
    now rewrite Hint2.
  - destruct (run_script_facts base run_body (run_entry s)) as (He1 & Hr1 & Hc1).
    rewrite Hrun in He1, Hr1, Hc1. simpl in He1, Hr1, Hc1.
    destruct (interrupt_script_facts base interrupt_body "default" s1) as (He2 & _ & Hc2).
    rewrite Hint1 in He2, Hc2. simpl in He2, Hc2.
    destruct (interrupt_script_facts base interrupt_body "default"
                (set_interrupt_reason "stopped" s2)) as (_ & _ & Hc3).
    rewrite Hint2 in Hc3. simpl in Hc3. rewrite Hc3, Hc2, Hc1. unfold seen. simpl.
    rewrite He2, He1, Hr1. now rewrite <- app_assoc.
Qed.

Lemma interrupt_script_stop_signal_is_retried_witness :
  returns (_start_script no_base stop_unchecked checking_interrupt_body __init__) = true /\
  interrupt_calls
    (trace (final_state
              (_start_script no_base stop_unchecked checking_interrupt_body __init__)))
  = [mkObservation (AtInterrupt "default") true "done";
     mkObservation (AtInterrupt "default") true "stopped"].
Proof.
  edestruct (interrupt_script_stop_signal_is_retried no_base stop_unchecked
               checking_interrupt_body __init__)
    as [Hret Hcalls].
  - cbv; reflexivity.
  - cbv; reflexivity.
  - cbv; reflexivity.
  - rewrite Hret. split; [reflexivity | exact Hcalls].
Defined.

(** X11: an error other than the stop signal raised by [interrupt_script]
    after a run that itself completed is treated like a failure of the run:
    [_start_script] re-raises it with [interrupt_reason == "failed"] and
    [executing] still [True]. *)
Theorem interrupt_script_error_fails_run
    (base : string -> bool) (run_body : list stmt) (interrupt_body : string -> list stmt)
    (s s1 s2 : ScriptThread) (e : exn) :
  e <> ScriptStopException ->
  run_script base run_body (run_entry s) = Ret tt s1 ->
  interrupt_script base interrupt_body "default" s1 = Raise e s2 ->
  _start_script base run_body interrupt_body s
  = Raise e (set_interrupt_reason "failed" s2) /\
  executing s2 = true.
Proof.
  intros He Hrun Hint. split.
  - rewrite _start_script_supervised, (try_body_after_run _ _ _ _ _ Hrun),
      (after_run_raises _ _ _ _ _ Hint).
    destruct e; [now destruct He | reflexivity..].
  - destruct (run_script_facts base run_body (run_entry s)) as (He1 & _ & _).
    rewrite Hrun in He1. simpl in He1.
    destruct (interrupt_script_facts base interrupt_body "default" s1) as (He2 & _ & _).
    rewrite Hint in He2. simpl in He2. congruence.
Qed.

Lemma interrupt_script_error_fails_run_witness :
  exists s',
    _start_script no_base [] raising_interrupt_body __init__ = Raise ScriptError s' /\
    interrupt_reason s' = "failed" /\ executing s' = true.
Proof.
  edestruct interrupt_script_error_fails_run
    with (base := no_base) (run_body := @nil stmt)
         (interrupt_body := raising_interrupt_body) (s := __init__) (e := ScriptError)
    as [Hret Hexec].
  - discriminate.
  - cbv; reflexivity.
  - cbv; reflexivity.
  - eexists. split; [exact Hret|]. split; [reflexivity | exact Hexec].
Defined.

(** X12: an exception raised by [interrupt_script] while the stop handler
    runs, be it an error or another stop signal, is not caught:
    [_start_script] raises it and the thread is left with
    [interrupt_reason == "stopped"] and [executing == True]. *)
Theorem stop_handler_error_escapes
    (base : string -> bool) (run_body : list stmt) (interrupt_body : string -> list stmt)
    (s s1 s2 : ScriptThread) (e : exn) :
  run_script base run_body (run_entry s) = Raise ScriptStopException s1 ->
  interrupt_script base interrupt_body "default" (set_interrupt_reason "stopped" s1)
  = Raise e s2 ->
  _start_script base run_body interrupt_body s = Raise e s2 /\
  interrupt_reason s2 = "stopped" /\
  executing s2 = true.
Proof.
  intros Hrun Hint. split; [|split].
  - rewrite _start_script_supervised. unfold bind at 1. rewrite Hrun.
    cbn [supervised]. unfold stop_handler, bind at 1, modify at 1. unfold bind at 1.
    now rewrite Hint.
  - destruct (interrupt_script_facts base interrupt_body "default"
                (set_interrupt_reason "stopped" s1)) as (_ & Hr & _).
    rewrite Hint in Hr. exact Hr.
  - destruct (run_script_facts base run_body (run_entry s)) as (He1 & _ & _).
    rewrite Hrun in He1. simpl in He1.
    destruct (interrupt_script_facts base interrupt_body "default"
                (set_interrupt_reason "stopped" s1)) as (He2 & _ & _).
    rewrite Hint in He2. simpl in He2. congruence.
Qed.

Lemma stop_handler_error_escapes_witness :
  exists s',
    _start_script no_base stop_then_check raising_interrupt_body __init__
    = Raise ScriptError s' /\
    interrupt_reason s' = "stopped" /\ executing s' = true.
Proof.
  edestruct stop_handler_error_escapes
    with (base := no_base) (run_body := stop_then_check)
         (interrupt_body := raising_interrupt_body) (s := __init__) (e := ScriptError)
    as (Hret & Hreason & Hexec).
  - cbv; reflexivity.
  - cbv; reflexivity.
  - eexists. split; [exact Hret|]. split; [exact Hreason | exact Hexec].
Defined.

Lemma try_body_outcome base run_body interrupt_body s :
  match (run_script base run_body ;; after_run base interrupt_body) (run_entry s) with
  | Ret _ s' => executing s' = false /\ interrupt_reason s' = "shutdown"
  | Raise _ s' => executing s' = true
  end.
Proof.
  unfold bind at 1.
  destruct (run_script_facts base run_body (run_entry s)) as (He1 & _ & _).
  destruct (run_script base run_body (run_entry s)) as [[] s1|e s1]; simpl in He1;
    [|exact He1].
  unfold after_run, bind at 1.
  destruct (interrupt_script_facts base interrupt_body "default" s1) as (He2 & _ & _).
  destruct (interrupt_script base interrupt_body "default" s1) as [[] s2|e s2];
    simpl in He2; [split; reflexivity | congruence].
Qed.

(** X13: whatever the scripts do, [_start_script] returns only with the
    thread idle again ([executing == False], [interrupt_reason ==
    "shutdown"]); when it raises instead, the thread is left with
    [executing == True] and [interrupt_reason] either ["failed"] or
    ["stopped"], never ["done"] or ["shutdown"]. *)
Theorem start_script_outcome
    (base : string -> bool) (run_body : list stmt) (interrupt_body : string -> list stmt)
    (s : ScriptThread) :
  match _start_script base run_body interrupt_body s with
  | Ret _ s' => executing s' = false /\ interrupt_reason s' = "shutdown"
  | Raise _ s' =>
      executing s' = true /\
      (interrupt_reason s' = "failed" \/ interrupt_reason s' = "stopped")
  end.
Proof.
  rewrite _start_script_supervised.
  pose proof (try_body_outcome base run_body interrupt_body s) as Hbody.
  destruct ((run_script base run_body ;; after_run base interrupt_body) (run_entry s))
    as [[] s1|e s1]; [exact Hbody|].
  destruct e; cbn [supervised]; try (split; [exact Hbody | left; reflexivity]).
  unfold stop_handler, bind at 1, modify at 1. unfold bind at 1.
  destruct (interrupt_script_facts base interrupt_body "default"
              (set_interrupt_reason "stopped" s1)) as (He2 & Hr2 & _).
  destruct (interrupt_script base interrupt_body "default"
              (set_interrupt_reason "stopped" s1)) as [[] s2|e s2];
    simpl in He2, Hr2; [split; reflexivity|].
  split; [congruence | right; exact Hr2].
Qed.

(** ** Waiting again and again *)

Lemma wait_for_signal_monitor_one_buffered base mon sig msg rest s :
  _monitored_signals s !! mon = Some sig -> messages sig = msg :: rest ->
  wait_for_signal_monitor base (OneMonitor mon) s
  = Ret (CkResult (mkTMulticastWaitResult mon msg)) (with_queue mon sig rest s).
Proof.
  intros Hreg Hq. unfold wait_for_signal_monitor. cbn [as_list]. unfold bind at 1.
  rewrite check_registered_all by (repeat constructor; now rewrite Hreg).
  unfold bind at 1. cbn [check_monitors]. unfold bind at 1.
  rewrite (getitem_Some _ _ _ Hreg), Hq. unfold bind at 1.
  now rewrite (messages_pop0_cons _ _ _ _ _ Hreg Hq).
Qed.

(** X14: calling [wait_for_signal_monitor(mon)] as many times as the
    registered monitor has messages buffered returns those messages one per
    call in arrival order, each paired with the monitor's name, without
    handling any pending event; afterwards the queue is empty and every
    other monitor is as before. *)
Theorem repeated_waits_return_queue_in_order
    (base : string -> bool) (mon : string) (sig : MonitoredSignal) (s : ScriptThread) :
  _monitored_signals s !! mon = Some sig ->
  exists s',
    wait_repeatedly base (OneMonitor mon) (length (messages sig)) s
    = Ret (map (fun msg => CkResult (mkTMulticastWaitResult mon msg)) (messages sig)) s' /\
    _monitored_signals s' !! mon = Some (mkMonitoredSignal (uid sig) [] (paused sig)) /\
    inbox s' = inbox s /\
    (forall other, other <> mon ->
       _monitored_signals s' !! other = _monitored_signals s !! other).
Proof.
  remember (messages sig) as msgs eqn:Hq. symmetry in Hq.
  revert sig s Hq. induction msgs as [|msg rest IH]; intros sig s Hq Hreg.
  - exists s. repeat split. rewrite Hreg. destruct sig; simpl in *; now subst.
  - cbn [length map wait_repeatedly]. unfold bind at 1.
    rewrite (wait_for_signal_monitor_one_buffered base _ _ _ _ _ Hreg Hq).
    destruct (IH (mkMonitoredSignal (uid sig) rest (paused sig)) (with_queue mon sig rest s))
      as (s' & Hrep & Hrec & Hin & Hoth); [reflexivity | apply lookup_with_queue |].
    exists s'. unfold bind at 1. rewrite Hrep. repeat split; try assumption.
    intros other Hne. rewrite (Hoth other Hne). simpl. now apply lookup_insert_ne.
Qed.

Lemma repeated_waits_return_queue_in_order_witness :
  exists s',
    wait_repeatedly no_base (OneMonitor "frame") 2
      (one_monitor [frame_msg; mkTMulticast "camera1" "any" "frame" 1] false)
    = Ret [CkResult (mkTMulticastWaitResult "frame" frame_msg);
           CkResult (mkTMulticastWaitResult "frame" (mkTMulticast "camera1" "any" "frame" 1))]
          s' /\
    _monitored_signals s' !! "frame" = Some (mkMonitoredSignal 0 [] false).
Proof.
  destruct (repeated_waits_return_queue_in_order no_base "frame"
              (mkMonitoredSignal 0 [frame_msg; mkTMulticast "camera1" "any" "frame" 1] false)
              (one_monitor [frame_msg; mkTMulticast "camera1" "any" "frame" 1] false))
    as (s' & Hrep & Hrec & _).
  - reflexivity.
  - exists s'. split; [exact Hrep | exact Hrec].
Defined.

(** X15: the polling closure [check_monitors(pop=False)] never consumes
    anything: it leaves the thread object as it was whether it returns or
    raises.  With every named monitor registered it returns [True] exactly
    when the popping form [check_monitors(pop=True)] returns a message, and
    both return [None] otherwise. *)
Theorem check_monitors_only_peeks (mons : list string) (s : ScriptThread) :
  final_state (check_monitors mons false s) = s /\
  (Forall (fun mon => is_Some (_monitored_signals s !! mon)) mons ->
   (check_monitors mons false s = Ret CkTrue s /\
    exists r s', check_monitors mons true s = Ret (CkResult r) s')
   \/
   (check_monitors mons false s = Ret CkNone s /\
    check_monitors mons true s = Ret CkNone s)).
Proof.
  split.
  - induction mons as [|mon mons IH]; [reflexivity|].
    cbn [check_monitors]. unfold bind, getitem.
    destruct (_monitored_signals s !! mon) as [sig|]; [|reflexivity].
    destruct (messages sig); [exact IH | reflexivity].
  - induction 1 as [|mon mons [sig Hreg] _ IH].
    + right. split; reflexivity.
    + assert (Hhead : forall pop,
                 check_monitors (mon :: mons) pop s
                 = match messages sig with
                   | [] => check_monitors mons pop s
                   | msg :: rest =>
                       if pop
                       then Ret (CkResult (mkTMulticastWaitResult mon msg))
                                (with_queue mon sig rest s)
                       else Ret CkTrue s
                   end).
      { intros pop. cbn [check_monitors]. unfold bind at 1.
        rewrite (getitem_Some _ _ _ Hreg).
        destruct (messages sig) as [|msg rest] eqn:Hq; [reflexivity|].
        destruct pop; [|reflexivity].
        unfold bind. now rewrite (messages_pop0_cons _ _ _ _ _ Hreg Hq). }
      rewrite !Hhead. destruct (messages sig) as [|msg rest]; [exact IH|].
      left. split; [reflexivity|]. eexists. eexists. reflexivity.
Qed.

Lemma check_monitors_only_peeks_witness :
  check_monitors ["frame"] false (one_monitor [frame_msg] false)
  = Ret CkTrue (one_monitor [frame_msg] false) /\
  exists r s', check_monitors ["frame"] true (one_monitor [frame_msg] false)
               = Ret (CkResult r) s'.
Proof.
  destruct (check_monitors_only_peeks ["frame"] (one_monitor [frame_msg] false))
    as [_ Hagree].
  destruct Hagree as [Hyes | [Hno _]].
  - repeat constructor. eexists. reflexivity.
  - exact Hyes.
  - discriminate Hno.
Defined.

(** ** Counting what is buffered *)

(** X16: [new_monitored_signals_number] only reads: it returns the length
    of the monitor's queue and leaves the thread object as it was.  After any
    sequence of handled events it reports the earlier count plus the number of
    deliveries addressed to the monitor if the monitor is active, and the
    earlier count unchanged if it is paused. *)
Theorem count_tracks_deliveries
    (base : string -> bool) (mon : string) (sig : MonitoredSignal)
    (evs : list event) (s : ScriptThread) :
  _monitored_signals s !! mon = Some sig ->
  new_monitored_signals_number mon s = Ret (length (messages sig)) s /\
  new_monitored_signals_number mon (drain base evs s)
  = Ret (length (messages sig)
         + (if paused sig then 0 else length (addressed_to mon evs)))
        (drain base evs s).
Proof.
  intros Hreg. split; [now apply new_monitored_signals_number_registered|].
  rewrite (new_monitored_signals_number_registered mon _ _
             (drain_record base mon evs sig s Hreg)).
  cbn [messages]. rewrite length_app. now destruct (paused sig).
Qed.

Lemma count_tracks_deliveries_witness :
  new_monitored_signals_number "frame"
    (drain no_base
       [MonitorSignal "frame" frame_msg; MonitorSignal "other" frame_msg;
        MonitorSignal "frame" frame_msg]
       (one_monitor [frame_msg] false))
  = Ret 3
      (drain no_base
         [MonitorSignal "frame" frame_msg; MonitorSignal "other" frame_msg;
          MonitorSignal "frame" frame_msg]
         (one_monitor [frame_msg] false)).
Proof.
  exact (proj2 (count_tracks_deliveries no_base "frame"
                  (mkMonitoredSignal 0 [frame_msg] false)
                  [MonitorSignal "frame" frame_msg; MonitorSignal "other" frame_msg;
                   MonitorSignal "frame" frame_msg]
                  (one_monitor [frame_msg] false) eq_refl)).
Defined.
